(** * Web Speech playground: the transcript accumulator and the synthesis settings

    A shallow embedding of [src/utils/utils.ts]: the two React hooks
    [useSpeechRecognition] and [useSpeechSynthesis].

    - JavaScript strings are sequences of UTF-16 code units ([list N]);
      [trim] removes the ECMAScript WhiteSpace and LineTerminator code points.
    - JavaScript numbers are IEEE-754 binary64 values ([spec_float]).
    - React state is what the last render produced.  A call [setX(v)] or
      [setX(prev => ...)] made by a handler does not change it: React puts the
      value or the updater function in a queue and calls the queued updaters,
      in order, during the next render, i.e. after the handler has returned.
      An assignment to [ref.current] on the other hand takes effect at once.
      A queued updater that reads a ref therefore sees the value the ref has
      when the render runs.  (React may call an updater at once when the
      component has no update pending; the one updater of the source that
      reads a ref is queued by [onend] after [setIsListening(false)], which
      is a pending update whenever the session that ends was live.)
    - The platform is outside: its events are the arguments of the handlers,
      the calls made on it are recorded, and what [start()] answers is an
      argument of [startListening].  The [console] calls are left out. *)

From Stdlib Require Import List Bool NArith ZArith String Ascii Lia.
From Stdlib Require Import Floats.SpecFloat.
Import ListNotations.

Set Implicit Arguments.

(** ** JavaScript strings *)

Module JS.

Definition jsstring := list N.

(** An ASCII literal of the source as a sequence of code units. *)
Definition lit (s : string) : jsstring :=
  map N_of_ascii (list_ascii_of_string s).

(** WhiteSpace and LineTerminator of ECMAScript (all in the basic plane):
    TAB, LF, VT, FF, CR, SP, NBSP, U+1680, U+2000..U+200A, U+2028, U+2029,
    U+202F, U+205F, U+3000 and U+FEFF. *)
Definition isWhiteSpace (c : N) : bool :=
  ((9 <=? c) && (c <=? 13) || (c =? 32) || (c =? 160) || (c =? 5760)
   || (8192 <=? c) && (c <=? 8202) || (c =? 8232) || (c =? 8233)
   || (c =? 8239) || (c =? 8287) || (c =? 12288) || (c =? 65279))%N.

Fixpoint trimStart (s : jsstring) : jsstring :=
  match s with
  | [] => []
  | c :: s' => if isWhiteSpace c then trimStart s' else s
  end.

Definition trimEnd (s : jsstring) : jsstring := rev (trimStart (rev s)).

(** [String.prototype.trim] *)
Definition trim (s : jsstring) : jsstring := trimEnd (trimStart s).

(** ToBoolean on a string: the empty string is the only falsy one. *)
Definition truthy (s : jsstring) : bool :=
  match s with [] => false | _ :: _ => true end.

(** ** JavaScript numbers *)

Definition number := spec_float.

Definition isNaN (x : number) : bool :=
  match x with S754_nan => true | _ => false end.

(** [x < y] and [x <= y] of the language; false when an operand is NaN. *)
Definition lessThan (x y : number) : bool := SFltb x y.
Definition lessEq (x y : number) : bool := SFleb x y.

(** [x === y] on numbers: NaN equals nothing, +0 equals -0. *)
Definition strictEq (x y : number) : bool := SFeqb x y.

(** [Math.max]: start from -Infinity; a NaN argument gives NaN; +0 wins
    over -0; a larger argument replaces the current highest. *)
Fixpoint max_from (highest : number) (args : list number) : number :=
  match args with
  | [] => highest
  | x :: rest =>
      if isNaN x then S754_nan
      else match x, highest with
           | S754_zero false, S754_zero true => max_from (S754_zero false) rest
           | _, _ => if lessThan highest x then max_from x rest
                     else max_from highest rest
           end
  end.

Definition Math_max (args : list number) : number :=
  max_from (S754_infinity true) args.

(** [Math.min]: start from +Infinity; a NaN argument gives NaN; -0 wins
    over +0; a smaller argument replaces the current lowest. *)
Fixpoint min_from (lowest : number) (args : list number) : number :=
  match args with
  | [] => lowest
  | x :: rest =>
      if isNaN x then S754_nan
      else match x, lowest with
           | S754_zero true, S754_zero false => min_from (S754_zero true) rest
           | _, _ => if lessThan x lowest then min_from x rest
                     else min_from lowest rest
           end
  end.

Definition Math_min (args : list number) : number :=
  min_from (S754_infinity false) args.

(** The numeric literals of the source, as binary64 values. *)
Definition n0 : number := S754_zero false.
Definition n0_1 : number := S754_finite false 7205759403792794 (-56).
Definition n0_5 : number := S754_finite false 4503599627370496 (-53).
Definition n0_8 : number := S754_finite false 7205759403792794 (-53).
Definition n1 : number := S754_finite false 4503599627370496 (-52).
Definition n2 : number := S754_finite false 4503599627370496 (-51).
Definition n10 : number := S754_finite false 5629499534213120 (-49).

End JS.

Import JS.

(** ** React: state, refs and the update queue *)

Module React.
Section Hooks.

(** [St]: the values of the component's [useState] cells at the last render;
    [Rf]: the contents of its [useRef] cells; [Call]: the calls it makes on
    the platform. *)
Variables St Rf Call : Type.

(** A queued update.  It is run at render time, on the state computed so far
    and with the refs as they are then. *)
Definition Update := Rf -> St -> St.

Record Ctx := mkCtx { refs : Rf; queue : list Update; calls : list Call }.

(** A handler threads the refs, the queue and the platform calls; [None] is
    an exception that leaves the handler uncaught. *)
Definition Handler (A : Type) := Ctx -> option A * Ctx.

Definition ret {A} (a : A) : Handler A := fun c => (Some a, c).

Definition bind {A B} (h : Handler A) (k : A -> Handler B) : Handler B :=
  fun c => match h c with
           | (Some a, c') => k a c'
           | (None, c') => (None, c')
           end.

Definition throw {A} : Handler A := fun c => (None, c).

(** [setX(...)]: append to the queue. *)
Definition enqueue (u : Update) : Handler unit :=
  fun c => (Some tt, mkCtx (refs c) (queue c ++ [u]) (calls c)).

(** [ref.current] read and written. *)
Definition readRefs : Handler Rf := fun c => (Some (refs c), c).

Definition writeRefs (f : Rf -> Rf) : Handler unit :=
  fun c => (Some tt, mkCtx (f (refs c)) (queue c) (calls c)).

Definition platform (k : Call) : Handler unit :=
  fun c => (Some tt, mkCtx (refs c) (queue c) (calls c ++ [k])).

(** The render: the queued updates applied in order. *)
Fixpoint flush (us : list Update) (r : Rf) (s : St) : St :=
  match us with
  | [] => s
  | u :: us' => flush us' r (u r s)
  end.

Record World := mkWorld { state : St; store : Rf }.

Record Outcome :=
  mkOutcome { returned : bool; world : World; issued : list Call }.

(** One event: the handler runs to its end on an empty queue, then React
    renders. *)
Definition dispatch (h : Handler unit) (w : World) : Outcome :=
  let '(r, c) := h (mkCtx (store w) [] []) in
  mkOutcome (match r with Some _ => true | None => false end)
            (mkWorld (flush (queue c) (refs c) (state w)) (refs c))
            (calls c).

End Hooks.
End React.

Arguments React.ret {St Rf Call A}.
Arguments React.throw {St Rf Call A}.
Arguments React.readRefs {St Rf Call}.
Arguments React.writeRefs {St Rf Call}.
Arguments React.enqueue {St Rf Call}.
Arguments React.platform {St Rf Call}.

Declare Scope handler_scope.
Delimit Scope handler_scope with handler.
Notation "x <- h ;; k" := (React.bind h (fun x => k))
  (at level 61, h at next level, right associativity) : handler_scope.
Notation "h ;; k" := (React.bind h (fun _ => k))
  (at level 61, right associativity) : handler_scope.

(** ** [useSpeechRecognition] *)

Module Recognition.

Local Open Scope handler_scope.

Record SpeechRecognitionSettings := mkSettings {
  lang : jsstring;
  continuous : bool;
  interimResults : bool;
  maxAlternatives : number }.

(** [Partial<SpeechRecognitionSettings>]: a property is present or not. *)
Record PartialSettings := mkPartial {
  p_lang : option jsstring;
  p_continuous : option bool;
  p_interimResults : option bool;
  p_maxAlternatives : option number }.

Definition orElse {A} (o : option A) (d : A) : A :=
  match o with Some a => a | None => d end.

(** [{ ...prev, ...newSettings }] *)
Definition spread (prev : SpeechRecognitionSettings) (p : PartialSettings)
  : SpeechRecognitionSettings :=
  mkSettings (orElse (p_lang p) (lang prev))
             (orElse (p_continuous p) (continuous prev))
             (orElse (p_interimResults p) (interimResults prev))
             (orElse (p_maxAlternatives p) (maxAlternatives prev)).

Definition defaultSettings : SpeechRecognitionSettings :=
  mkSettings (lit "en-US") true true n1.

(** The error descriptor [{ error, message }]; its first field is called
    [code] here, [error] being the name of the hook's state cell. *)
Record SpeechRecognitionError := mkError {
  code : jsstring;
  message : jsstring }.

(** The platform's events. *)
Record SpeechRecognitionAlternative := mkAlt {
  transcript : jsstring;
  confidence : number }.

Record SpeechRecognitionResult := mkResult {
  isFinal : bool;
  alternatives : list SpeechRecognitionAlternative }.

Record SpeechRecognitionEvent := mkEvent {
  resultIndex : nat;
  results : list SpeechRecognitionResult }.

Record SpeechRecognitionErrorEvent := mkErrorEvent {
  ev_error : jsstring;
  ev_message : option jsstring }.

(** The recognition object the effect creates and configures. *)
Record SpeechRecognition := mkRecognition {
  r_continuous : bool;
  r_interimResults : bool;
  r_lang : jsstring;
  r_maxAlternatives : number }.

(** The [useState] cells. *)
Record State := mkState {
  settings : SpeechRecognitionSettings;
  finalTranscript : jsstring;
  interimTranscript : jsstring;
  isListening : bool;
  error : option SpeechRecognitionError }.

(** The [useRef] cells. *)
Record Refs := mkRefs {
  recognitionRef : option SpeechRecognition;
  latestInterimRef : jsstring }.

(** Calls on the recognition object. *)
Inductive Call := CallStart | CallStop.

Definition Handler := React.Handler State Refs Call.
Definition World := React.World State Refs.

(** What a setter is given: a value, or an updater function.  The updater
    is a closure; of the mutable things it can reach, the refs are passed
    explicitly. *)
Inductive Action (A : Type) :=
| Value (v : A)
| Updater (f : Refs -> A -> A).

Definition act {A} (a : Action A) (r : Refs) (prev : A) : A :=
  match a with Value v => v | Updater f => f r prev end.

Definition setSettings (a : Action SpeechRecognitionSettings) : Handler unit :=
  React.enqueue (fun r s =>
    mkState (act a r (settings s)) (finalTranscript s) (interimTranscript s)
            (isListening s) (error s)).

Definition setFinalTranscript (a : Action jsstring) : Handler unit :=
  React.enqueue (fun r s =>
    mkState (settings s) (act a r (finalTranscript s)) (interimTranscript s)
            (isListening s) (error s)).

Definition setInterimTranscript (a : Action jsstring) : Handler unit :=
  React.enqueue (fun r s =>
    mkState (settings s) (finalTranscript s) (act a r (interimTranscript s))
            (isListening s) (error s)).

Definition setIsListening (a : Action bool) : Handler unit :=
  React.enqueue (fun r s =>
    mkState (settings s) (finalTranscript s) (interimTranscript s)
            (act a r (isListening s)) (error s)).

Definition setError (a : Action (option SpeechRecognitionError)) : Handler unit :=
  React.enqueue (fun r s =>
    mkState (settings s) (finalTranscript s) (interimTranscript s)
            (isListening s) (act a r (error s))).

(** [latestInterimRef.current = v] and [recognitionRef.current = v] *)
Definition setLatestInterim (v : jsstring) : Handler unit :=
  React.writeRefs (fun r => mkRefs (recognitionRef r) v).

Definition setRecognition (v : option SpeechRecognition) : Handler unit :=
  React.writeRefs (fun r => mkRefs v (latestInterimRef r)).

(** The loop of [onresult] over [event.results[i]], [i] from
    [event.resultIndex] on.  [None]: [result[0]] is undefined and reading
    its [transcript] throws a TypeError. *)
Fixpoint onresult_loop (rs : list SpeechRecognitionResult)
    (currentSessionInterim currentSessionFinal : jsstring)
  : option (jsstring * jsstring) :=
  match rs with
  | [] => Some (currentSessionInterim, currentSessionFinal)
  | result :: rest =>
      match alternatives result with
      | [] => None
      | alt0 :: _ =>
          let transcriptPart := transcript alt0 in
          if isFinal result
          then onresult_loop rest currentSessionInterim
                 (currentSessionFinal ++ (transcriptPart ++ lit " "))
          else onresult_loop rest
                 (currentSessionInterim ++ transcriptPart) currentSessionFinal
      end
  end.

Definition onresult (event : SpeechRecognitionEvent) : Handler unit :=
  match onresult_loop (skipn (resultIndex event) (results event)) [] [] with
  | None => React.throw
  | Some (currentSessionInterim, currentSessionFinal) =>
      setFinalTranscript
        (Updater (fun _ prev => trim (prev ++ currentSessionFinal))) ;;
      setInterimTranscript (Value (trim currentSessionInterim)) ;;
      setLatestInterim (trim currentSessionInterim) ;;
      setError (Value None)
  end.

Definition onstart : Handler unit :=
  setIsListening (Value true) ;;
  setError (Value None) ;;
  setFinalTranscript (Value []) ;;
  setInterimTranscript (Value []) ;;
  setLatestInterim [].

(** The updater given to [setFinalTranscript] reads
    [latestInterimRef.current] when it is called. *)
Definition onend : Handler unit :=
  setIsListening (Value false) ;;
  r <- React.readRefs ;;
  (if truthy (latestInterimRef r)
   then setFinalTranscript
          (Updater (fun r' prev =>
             trim (prev ++ lit " " ++ latestInterimRef r')))
   else React.ret tt) ;;
  setInterimTranscript (Value []) ;;
  setLatestInterim [].

Definition unknownErrorMessage : jsstring :=
  lit "An unknown speech recognition error occurred.".

(** [event.message || '...']: the default when the message is undefined or
    empty. *)
Definition messageOrDefault (m : option jsstring) : jsstring :=
  match m with
  | Some (c :: s) => c :: s
  | _ => unknownErrorMessage
  end.

Definition onerror (event : SpeechRecognitionErrorEvent) : Handler unit :=
  setIsListening (Value false) ;;
  setError (Value (Some (mkError (ev_error event)
                                 (messageOrDefault (ev_message event))))) ;;
  setFinalTranscript (Value []) ;;
  setInterimTranscript (Value []) ;;
  setLatestInterim [].

(** The effect.  [supported]: ['webkitSpeechRecognition' in window] or
    ['SpeechRecognition' in window]. *)
Definition browserNotSupported : SpeechRecognitionError :=
  mkError (lit "BrowserNotSupported")
          (lit "Web Speech API is not supported by your browser.").

Definition effect (supported : bool) (s : SpeechRecognitionSettings)
  : Handler unit :=
  if negb supported
  then setError (Value (Some browserNotSupported))
  else setRecognition
         (Some (mkRecognition (continuous s) (interimResults s) (lang s)
                              (maxAlternatives s))).

(** [recognitionRef.current] as a condition: non-null. *)
Definition present {A} (o : option A) : bool :=
  match o with Some _ => true | None => false end.

(** The cleanup the effect returns (it returns none when unsupported). *)
Definition cleanup : Handler unit :=
  r <- React.readRefs ;;
  if present (recognitionRef r) then React.platform CallStop else React.ret tt.

(** What [recognitionRef.current.start()] does: it returns, or throws an
    [Error] with a message, or throws something else. *)
Inductive StartResult :=
| Started
| ThrewError (msg : jsstring)
| ThrewOther.

Definition startFailedMessage : jsstring :=
  lit "Recognition is already in progress or failed to start.".

Definition alreadyListening : SpeechRecognitionError :=
  mkError (lit "AlreadyListening") (lit "Recognition is already active.").

Definition notInitialized : SpeechRecognitionError :=
  mkError (lit "NotInitialized")
    (lit "Speech Recognition not initialized. Browser might not support it.").

(** [startListening], a closure of the render that produced [s]: the
    [isListening] it tests is the one of that render. *)
Definition startListening (s : State) (start : StartResult) : Handler unit :=
  r <- React.readRefs ;;
  if present (recognitionRef r) && negb (isListening s)
  then
    setFinalTranscript (Value []) ;;
    setInterimTranscript (Value []) ;;
    setLatestInterim [] ;;
    setError (Value None) ;;
    React.platform CallStart ;;
    match start with
    | Started => React.ret tt
    | ThrewError msg =>
        setError (Value (Some (mkError (lit "RecognitionInProgress") msg)))
    | ThrewOther =>
        setError (Value (Some (mkError (lit "RecognitionInProgress")
                                       startFailedMessage)))
    end
  else if isListening s
  then setError (Value (Some alreadyListening))
  else setError (Value (Some notInitialized)).

Definition stopListening (s : State) : Handler unit :=
  r <- React.readRefs ;;
  if present (recognitionRef r) && isListening s
  then React.platform CallStop
  else React.ret tt.

Definition updateSettings (newSettings : PartialSettings) : Handler unit :=
  setSettings (Updater (fun _ prev => spread prev newSettings)).

(** [transcript] of the hook's return value. *)
Definition transcriptOf (s : State) : jsstring :=
  trim (finalTranscript s ++ lit " " ++ interimTranscript s).

(** The first render and the effect after it. *)
Definition initial (initialSettings : PartialSettings) : World :=
  React.mkWorld
    (mkState (spread defaultSettings initialSettings) [] [] false None)
    (mkRefs None []).

Definition mount (supported : bool) (initialSettings : PartialSettings)
  : World :=
  let w := initial initialSettings in
  React.world (React.dispatch (effect supported (settings (React.state w))) w).

(** The requests the page can make of the hook. *)
Inductive Request :=
| ReqStart (start : StartResult)
| ReqStop
| ReqUpdateSettings (newSettings : PartialSettings).

(** One request, rendered; a change of settings re-runs the effect, after
    the cleanup of the previous one when that one had returned a cleanup. *)
Definition request (supported : bool) (q : Request) (w : World) : World :=
  match q with
  | ReqStart start =>
      React.world (React.dispatch (startListening (React.state w) start) w)
  | ReqStop =>
      React.world (React.dispatch (stopListening (React.state w)) w)
  | ReqUpdateSettings p =>
      let w1 := React.world (React.dispatch (updateSettings p) w) in
      let w2 := if supported
                then React.world (React.dispatch cleanup w1) else w1 in
      React.world
        (React.dispatch (effect supported (settings (React.state w2))) w2)
  end.

Fixpoint requests (supported : bool) (qs : list Request) (w : World) : World :=
  match qs with
  | [] => w
  | q :: qs' => requests supported qs' (request supported q w)
  end.

(** A sequence of result events, each rendered before the next; [None] as
    soon as one handler throws. *)
Fixpoint batches (evs : list SpeechRecognitionEvent) (w : World)
  : option World :=
  match evs with
  | [] => Some w
  | ev :: evs' =>
      let o := React.dispatch (onresult ev) w in
      if React.returned o then batches evs' (React.world o) else None
  end.

End Recognition.


(** ** [useSpeechSynthesis] *)

Module Synthesis.

Local Open Scope handler_scope.

Record SpeechSynthesisSettings := mkSettings {
  lang : jsstring;
  rate : number;
  pitch : number;
  volume : number;
  voiceName : option jsstring }.

(** [Partial<SpeechSynthesisSettings>]: a property is present or not; the
    optional [voiceName] can also be present with the value undefined (the
    page passes [{ voiceName: e.target.value || undefined }]). *)
Record PartialSettings := mkPartial {
  p_lang : option jsstring;
  p_rate : option number;
  p_pitch : option number;
  p_volume : option number;
  p_voiceName : option (option jsstring) }.

Definition noSettings : PartialSettings := mkPartial None None None None None.

Definition orElse {A} (o : option A) (d : A) : A :=
  match o with Some a => a | None => d end.

(** [{ ...prev, ...newSettings }] *)
Definition spread (prev : SpeechSynthesisSettings) (p : PartialSettings)
  : SpeechSynthesisSettings :=
  mkSettings (orElse (p_lang p) (lang prev))
             (orElse (p_rate p) (rate prev))
             (orElse (p_pitch p) (pitch prev))
             (orElse (p_volume p) (volume prev))
             (orElse (p_voiceName p) (voiceName prev)).

Definition defaultSettings : SpeechSynthesisSettings :=
  mkSettings (lit "en-US") n0_8 n1 n1 None.

Record SpeechSynthesisVoice := mkVoice {
  v_name : jsstring;
  v_lang : jsstring;
  v_default : bool }.

Record SpeechSynthesisUtterance := mkUtterance {
  u_text : jsstring;
  u_lang : jsstring;
  u_rate : number;
  u_pitch : number;
  u_volume : number;
  u_voice : option SpeechSynthesisVoice }.

(** [new SpeechSynthesisUtterance(text)] with the platform's defaults. *)
Definition newUtterance (text : jsstring) : SpeechSynthesisUtterance :=
  mkUtterance text [] n1 n1 n1 None.

(** The error descriptor [{ error, utterance, message }]; [error] is called
    [code] here. *)
Record SpeechSynthesisError := mkError {
  code : jsstring;
  utterance : SpeechSynthesisUtterance;
  message : jsstring }.

Record State := mkState {
  settings : SpeechSynthesisSettings;
  error : option SpeechSynthesisError;
  isSpeaking : bool;
  availableVoices : list SpeechSynthesisVoice }.

(** Calls on [window.speechSynthesis]. *)
Inductive Call :=
| CallSpeak (u : SpeechSynthesisUtterance)
| CallCancel.

(** The hook has no refs. *)
Definition Handler := React.Handler State unit Call.
Definition World := React.World State unit.

Definition setSettings (f : SpeechSynthesisSettings -> SpeechSynthesisSettings)
  : Handler unit :=
  React.enqueue (fun _ s =>
    mkState (f (settings s)) (error s) (isSpeaking s) (availableVoices s)).

Definition setError (v : option SpeechSynthesisError) : Handler unit :=
  React.enqueue (fun _ s =>
    mkState (settings s) v (isSpeaking s) (availableVoices s)).

Definition setIsSpeaking (v : bool) : Handler unit :=
  React.enqueue (fun _ s =>
    mkState (settings s) (error s) v (availableVoices s)).

Definition setAvailableVoices (v : list SpeechSynthesisVoice) : Handler unit :=
  React.enqueue (fun _ s =>
    mkState (settings s) (error s) (isSpeaking s) v).

(** [===] on strings. *)
Fixpoint streq (a b : jsstring) : bool :=
  match a, b with
  | [], [] => true
  | x :: a', y :: b' => N.eqb x y && streq a' b'
  | _, _ => false
  end.

Definition unsupportedOrNoText : SpeechSynthesisError :=
  mkError (lit "UnsupportedOrNoText") (newUtterance [])
          (lit "Speech Synthesis is not supported or no text provided.").

(** The voice [speak] gives the utterance: the one named in the settings for
    the language when a name is set (none when it is not found), else the
    default voice of the language. *)
Definition chooseVoice (voices : list SpeechSynthesisVoice)
    (finalSettings : SpeechSynthesisSettings) : option SpeechSynthesisVoice :=
  match voiceName finalSettings with
  | Some (c :: n) =>
      find (fun voice => streq (v_name voice) (c :: n)
                         && streq (v_lang voice) (lang finalSettings)) voices
  | _ =>
      find (fun voice => streq (v_lang voice) (lang finalSettings)
                         && v_default voice) voices
  end.

(** The utterance [speak] builds from the text and the merged settings. *)
Definition buildUtterance (voices : list SpeechSynthesisVoice)
    (text : jsstring) (finalSettings : SpeechSynthesisSettings)
  : SpeechSynthesisUtterance :=
  mkUtterance text
    (lang finalSettings)
    (Math_max [n0_1; Math_min [n10; rate finalSettings]])
    (Math_max [n0; Math_min [n2; pitch finalSettings]])
    (Math_max [n0; Math_min [n1; volume finalSettings]])
    (chooseVoice voices finalSettings).

(** [speak], a closure of the render that produced [s]; [supported] is
    ['speechSynthesis' in window]; [customSettings] is [None] when the
    argument is left out. *)
Definition speak (supported : bool) (s : State) (text : jsstring)
    (customSettings : option PartialSettings) : Handler unit :=
  if negb supported || negb (truthy text)
  then setError (Some unsupportedOrNoText)
  else
    let finalSettings := spread (settings s) (orElse customSettings noSettings) in
    let utterance := buildUtterance (availableVoices s) text finalSettings in
    setIsSpeaking true ;;
    setError None ;;
    React.platform (CallSpeak utterance).

(** [utterance.onend] and the ['end'] listener. *)
Definition handleEnd : Handler unit := setIsSpeaking false.

(** The ['error'] listener; the event carries an error code and the
    utterance; [error || '...'] is the default when the code is empty. *)
Definition handleError (ev_error : jsstring)
    (ev_utterance : SpeechSynthesisUtterance) : Handler unit :=
  setError (Some (mkError ev_error ev_utterance
                          (if truthy ev_error then ev_error
                           else lit "Speech synthesis error occurred"))) ;;
  setIsSpeaking false.

(** The effect of the first render; [voices] is what
    [window.speechSynthesis.getVoices()] answers. *)
Definition effect (supported : bool) (voices : list SpeechSynthesisVoice)
  : Handler unit :=
  if negb supported
  then setError (Some (mkError (lit "BrowserNotSupported") (newUtterance [])
         (lit "Web Speech Synthesis API is not supported by your browser.")))
  else setAvailableVoices voices.

Definition stopSpeaking (supported : bool) : Handler unit :=
  if supported
  then React.platform CallCancel ;; setIsSpeaking false
  else React.ret tt.

Definition updateSettings (newSettings : PartialSettings) : Handler unit :=
  setSettings (fun prev => spread prev newSettings).

(** [updateSettings] called twice by one handler, before any render. *)
Definition updateSettingsTwice (newSettings : PartialSettings) : Handler unit :=
  updateSettings newSettings ;; updateSettings newSettings.

(** The argument [{ rate: 0.5 }]. *)
Definition rateHalf : PartialSettings :=
  mkPartial None (Some n0_5) None None None.

(** The utterance a call of [speak] hands to the platform, if any. *)
Definition spoken (o : React.Outcome State unit Call)
  : option SpeechSynthesisUtterance :=
  match React.issued o with
  | [CallSpeak u] => Some u
  | _ => None
  end.

End Synthesis.


(** ** The words of the specification

    Definitions that follow the specification's sentences rather than the
    code; the theorems below compare the code with them. *)

Module Spec.

Import Recognition.

(** The results of a batch from the given offset onward. *)
Definition batchResults (ev : SpeechRecognitionEvent)
  : list SpeechRecognitionResult :=
  skipn (resultIndex ev) (results ev).

(** The alternative-0 transcript of a result (empty when there is none). *)
Definition alt0Transcript (r : SpeechRecognitionResult) : jsstring :=
  match alternatives r with
  | a :: _ => transcript a
  | [] => []
  end.

(** "the concatenated non-final alternative-0 transcripts of that batch" *)
Definition concatInterim (rs : list SpeechRecognitionResult) : jsstring :=
  List.concat (map alt0Transcript (filter (fun r => negb (isFinal r)) rs)).

(** "its alternative-0 transcript plus a separator space", for each final
    result of the batch, in order. *)
Definition concatFinal (rs : list SpeechRecognitionResult) : jsstring :=
  List.concat (map (fun r => alt0Transcript r ++ lit " ") (filter isFinal rs)).

(** Every result processed has an alternative 0. *)
Definition hasAlternative (r : SpeechRecognitionResult) : bool :=
  match alternatives r with [] => false | _ :: _ => true end.

Definition wellFormed (ev : SpeechRecognitionEvent) : bool :=
  forallb hasAlternative (batchResults ev).

(** "every result is final" *)
Definition allFinal (ev : SpeechRecognitionEvent) : bool :=
  forallb isFinal (results ev).

(** "clamped into [lo, hi]": below [lo] gives [lo], above [hi] gives [hi],
    a value in between is kept. *)
Definition clamp (lo hi x : number) : number :=
  if lessThan x lo then lo else if lessThan hi x then hi else x.

(** [x] lies in the closed interval from [lo] to [hi]. *)
Definition within (lo hi x : number) : bool := lessEq lo x && lessEq x hi.

(** The bounds the code clamps with: a lower bound that is +0 or positive
    and finite, a positive finite upper bound. *)
Definition properBounds (lo hi : number) : bool :=
  match lo, hi with
  | S754_zero false, S754_finite false _ _ => true
  | S754_finite false _ _, S754_finite false _ _ => true
  | _, _ => false
  end.

(** The order of two finite values of the same sign, by exponent and then
    mantissa, as the comparison of binary64 values has it. *)
Definition cmpFinite (e1 : Z) (m1 : positive) (e2 : Z) (m2 : positive)
  : comparison :=
  match Z.compare e1 e2 with
  | Lt => Lt
  | Gt => Gt
  | Eq => Pos.compare m1 m2
  end.

(** A hook that has rendered the default settings, and the custom settings
    [{ rate: NaN }]. *)
Definition freshSynthesis : Synthesis.World :=
  React.mkWorld (Synthesis.mkState Synthesis.defaultSettings None false []) tt.

Definition rateNaN : Synthesis.PartialSettings :=
  Synthesis.mkPartial None (Some S754_nan) None None None.

(** Custom settings out of range on all three: rate 1e3 (above 10), pitch -2
    (below 0), volume +Infinity. *)
Definition outOfRange : Synthesis.PartialSettings :=
  Synthesis.mkPartial None
    (Some (S754_finite false 8796093022208000 (-43)))
    (Some (S754_finite true 4503599627370496 (-51)))
    (Some (S754_infinity false)) None.

(** A batch of one result with one alternative. *)
Definition single (final : bool) (text : string) : SpeechRecognitionEvent :=
  mkEvent 0 [mkResult final [mkAlt (lit text) n1]].

(** A live session with no final result whose interim buffer holds
    "testing". *)
Definition abruptSession : World :=
  React.mkWorld
    (mkState defaultSettings [] (lit "testing") true None)
    (mkRefs (Some (mkRecognition true true (lit "en-US") n1)) (lit "testing")).

(** A batch with offset 1, so that its first result is skipped: two final
    results around an interim one, the first with two alternatives. *)
Definition mixedBatch : SpeechRecognitionEvent :=
  mkEvent 1 [ mkResult true  [mkAlt (lit "skipped") n1];
              mkResult true  [mkAlt (lit "one") n1; mkAlt (lit "won") n0_5];
              mkResult false [mkAlt (lit " two ") n0_8];
              mkResult true  [mkAlt (lit "three") n1] ].

(** A batch of final results only, each with an alternative 0. *)
Definition finalBatch (ev : SpeechRecognitionEvent) : Prop :=
  allFinal ev = true /\ wellFormed ev = true.

(** The state of the hook where recognition is unavailable: idle, without a
    recognition object, and showing one of the two errors. *)
Definition unavailable (w : World) : Prop :=
  isListening (React.state w) = false /\
  recognitionRef (React.store w) = None /\
  (error (React.state w) = Some browserNotSupported \/
   error (React.state w) = Some notInitialized).

(** A stopped hook with text and an error on display. *)
Definition stoppedWithError : World :=
  React.mkWorld
    (mkState defaultSettings (lit "hello") (lit "wor") false
             (Some alreadyListening))
    (mkRefs (Some (mkRecognition true true (lit "en-US") n1)) (lit "wor")).

End Spec.

(** ** Whole sessions: the events and requests a mounted hook receives *)

Module Session.

Import Recognition.

(** The platform's events on the recognition object, and the requests of
    the page. *)
Inductive Event :=
| EvResult (event : SpeechRecognitionEvent)
| EvStart
| EvEnd
| EvError (event : SpeechRecognitionErrorEvent)
| EvRequest (q : Request).

Definition handle (h : Handler unit) (w : World) : World :=
  React.world (React.dispatch h w).

(** One event, rendered.  The handlers are properties of the recognition
    object: without an object there is nothing the platform can call. *)
Definition deliver (supported : bool) (e : Event) (w : World) : World :=
  match e with
  | EvRequest q => request supported q w
  | EvResult event =>
      if present (recognitionRef (React.store w))
      then handle (onresult event) w else w
  | EvStart =>
      if present (recognitionRef (React.store w)) then handle onstart w else w
  | EvEnd =>
      if present (recognitionRef (React.store w)) then handle onend w else w
  | EvError event =>
      if present (recognitionRef (React.store w))
      then handle (onerror event) w else w
  end.

Fixpoint run (supported : bool) (es : list Event) (w : World) : World :=
  match es with
  | [] => w
  | e :: es' => run supported es' (deliver supported e w)
  end.

(** The recognition object the effect makes from the settings. *)
Definition configured (s : SpeechRecognitionSettings) : SpeechRecognition :=
  mkRecognition (continuous s) (interimResults s) (lang s) (maxAlternatives s).

(** A string without leading or trailing whitespace. *)
Definition trimmed (s : jsstring) : Prop := trim s = s.

(** What holds of the hook after the first render and after every event:
    the interim state cell and the interim ref agree, both buffers are
    trimmed, and the recognition object is the one made from the current
    settings (none where recognition is unsupported). *)
Definition invariant (supported : bool) (w : World) : Prop :=
  interimTranscript (React.state w) = latestInterimRef (React.store w) /\
  trimmed (finalTranscript (React.state w)) /\
  trimmed (interimTranscript (React.state w)) /\
  recognitionRef (React.store w) =
    if supported then Some (configured (settings (React.state w))) else None.

(** The transcript of two trimmed buffers, piece by piece. *)
Definition joined (final interim : jsstring) : jsstring :=
  match final, interim with
  | _, [] => final
  | [], _ => interim
  | _, _ => final ++ lit " " ++ interim
  end.

(** An idle hook with a recognition object, old text in its buffers and an
    error on display. *)
Definition idleWithText : World :=
  React.mkWorld
    (mkState defaultSettings (lit "old text") (lit "old") false
             (Some notInitialized))
    (mkRefs (Some (configured defaultSettings)) (lit "old")).

(** A live session whose final buffer holds "hello" and whose interim buffer
    is empty. *)
Definition liveHello : World :=
  React.mkWorld
    (mkState defaultSettings (lit "hello") [] true None)
    (mkRefs (Some (configured defaultSettings)) []).

(** A batch whose second result has no alternative. *)
Definition brokenBatch : SpeechRecognitionEvent :=
  mkEvent 0 [ mkResult true [mkAlt (lit "kept?") n1]; mkResult false [] ].

End Session.

(** ** The page: [src/app/page.tsx] *)

Module Page.

(** *** The recognition button and the recognition settings controls *)

(** [disabled={!!recognitionError && !isListening}] *)
Definition toggleDisabled (s : Recognition.State) : bool :=
  Recognition.present (Recognition.error s)
  && negb (Recognition.isListening s).

(** [onClick={isListening ? stopListening : startListening}]; a disabled
    button receives no click. *)
Definition toggleClick (s : Recognition.State)
    (start : Recognition.StartResult) : Recognition.Handler unit :=
  if toggleDisabled s then React.ret tt
  else if Recognition.isListening s
       then Recognition.stopListening s
       else Recognition.startListening s start.

(** What the user can do to the recognition part of the page. *)
Inductive Interaction :=
| ClickToggle (start : Recognition.StartResult)
| ChangeSettings (p : Recognition.PartialSettings).

(** One interaction, rendered, with the calls it makes on the platform.  The
    settings controls are [disabled={isListening}]; a change re-runs the
    effect as in [Recognition.request]. *)
Definition interact (supported : bool) (i : Interaction)
    (w : Recognition.World) : Recognition.World * list Recognition.Call :=
  match i with
  | ClickToggle start =>
      let o := React.dispatch (toggleClick (React.state w) start) w in
      (React.world o, React.issued o)
  | ChangeSettings p =>
      if Recognition.isListening (React.state w) then (w, [])
      else
        let o1 := React.dispatch (Recognition.updateSettings p) w in
        let o2 := if supported
                  then React.dispatch Recognition.cleanup (React.world o1)
                  else React.mkOutcome true (React.world o1) [] in
        let o3 := React.dispatch
                    (Recognition.effect supported
                       (Recognition.settings (React.state (React.world o2))))
                    (React.world o2) in
        (React.world o3, React.issued o1 ++ React.issued o2 ++ React.issued o3)
  end.

Fixpoint interactions (supported : bool) (acts : list Interaction)
    (w : Recognition.World) : Recognition.World * list Recognition.Call :=
  match acts with
  | [] => (w, [])
  | i :: acts' =>
      let '(w1, calls1) := interact supported i w in
      let '(w2, calls2) := interactions supported acts' w1 in
      (w2, calls1 ++ calls2)
  end.

(** *** The synthesis buttons *)

(** [disabled={isSpeaking || !textToSpeak.trim() || !!synthesisError}] *)
Definition speakDisabled (s : Synthesis.State) (textToSpeak : jsstring) : bool :=
  Synthesis.isSpeaking s
  || negb (truthy (trim textToSpeak))
  || Recognition.present (Synthesis.error s).

(** [handleSpeak] *)
Definition handleSpeak (supported : bool) (s : Synthesis.State)
    (textToSpeak : jsstring) : Synthesis.Handler unit :=
  if truthy (trim textToSpeak)
  then Synthesis.speak supported s textToSpeak None
  else React.ret tt.

Definition speakClick (supported : bool) (s : Synthesis.State)
    (textToSpeak : jsstring) : Synthesis.Handler unit :=
  if speakDisabled s textToSpeak then React.ret tt
  else handleSpeak supported s textToSpeak.

(** The Stop button: [disabled={!isSpeaking}], [onClick={stopSpeaking}]. *)
Definition stopClick (supported : bool) (s : Synthesis.State)
  : Synthesis.Handler unit :=
  if negb (Synthesis.isSpeaking s) then React.ret tt
  else Synthesis.stopSpeaking supported.

End Page.

Import Spec.

(** * Theorems *)

Unset Implicit Arguments.

(** ** The recognition hook *)

Section RecognitionFacts.

Import Recognition.

(** The loop of [onresult] computes the two concatenations of the
    specification, when every result has an alternative 0. *)
Lemma onresult_loop_spec (rs : list SpeechRecognitionResult) :
  forall i f,
    forallb hasAlternative rs = true ->
    onresult_loop rs i f = Some (i ++ concatInterim rs, f ++ concatFinal rs).
Proof.
  unfold concatInterim, concatFinal.
  induction rs as [| r rs IH]; intros i f H; simpl.
  - now rewrite !app_nil_r.
  - simpl in H. apply andb_true_iff in H. destruct H as [Hr Hrs].
    unfold hasAlternative in Hr.
    destruct (alternatives r) as [| a more] eqn:Ha; [discriminate |].
    destruct (isFinal r) eqn:Hf; simpl; rewrite IH by assumption;
      unfold alt0Transcript; rewrite Ha;
      now rewrite <- ?app_assoc.
Qed.

(** It throws as soon as one result has none. *)
Lemma onresult_loop_throws (rs : list SpeechRecognitionResult) :
  forall i f,
    forallb hasAlternative rs = false -> onresult_loop rs i f = None.
Proof.
  induction rs as [| r rs IH]; intros i f H; simpl in *; [discriminate |].
  unfold hasAlternative in H.
  destruct (alternatives r) as [| a more]; [reflexivity |].
  simpl in H. destruct (isFinal r); now apply IH.
Qed.

(** What [onresult] does to the world. *)
Lemma onresult_world (ev : SpeechRecognitionEvent) (w : World) :
  wellFormed ev = true ->
  React.dispatch (onresult ev) w =
  React.mkOutcome true
    (React.mkWorld
       (mkState (settings (React.state w))
          (trim (finalTranscript (React.state w) ++ concatFinal (batchResults ev)))
          (trim (concatInterim (batchResults ev)))
          (isListening (React.state w))
          None)
       (mkRefs (recognitionRef (React.store w))
               (trim (concatInterim (batchResults ev)))))
    [].
Proof.
  intros H. unfold wellFormed in H.
  unfold React.dispatch, onresult. fold (batchResults ev).
  rewrite (onresult_loop_spec _ [] [] H). reflexivity.
Qed.

(** An exception in the loop leaves everything as it was. *)
Lemma onresult_throws (ev : SpeechRecognitionEvent) (w : World) :
  wellFormed ev = false ->
  React.dispatch (onresult ev) w = React.mkOutcome false w [].
Proof.
  intros H. unfold wellFormed in H.
  unfold React.dispatch, onresult. fold (batchResults ev).
  rewrite (onresult_loop_throws _ [] [] H). now destruct w.
Qed.

End RecognitionFacts.

Section RecognitionClaims.

Import Recognition.

(** C1, as stated, fails: both buffers are trimmed after the batch.  A batch
    with the single non-final transcript " hi" leaves "hi" in the interim
    buffer, which is not the concatenated transcript " hi"; a batch with the
    single final transcript "hello" leaves "hello" in the final buffer, not
    the transcript plus the separator space. *)
Lemma onresult_interim_is_trimmed :
  let w := initial (mkPartial None None None None) in
  let ev := single false " hi" in
  let o := React.dispatch (onresult ev) w in
  let ev' := single true "hello" in
  let o' := React.dispatch (onresult ev') w in
  (interimTranscript (React.state (React.world o)) = lit "hi" /\
   concatInterim (batchResults ev) = lit " hi" /\
   interimTranscript (React.state (React.world o))
     <> concatInterim (batchResults ev)) /\
  (finalTranscript (React.state (React.world o')) = lit "hello" /\
   concatFinal (batchResults ev') = lit "hello " /\
   finalTranscript (React.state (React.world o'))
     <> finalTranscript (React.state w) ++ concatFinal (batchResults ev')).
Proof.
  vm_compute. repeat split; discriminate.
Qed.

(** C1, amended: for a batch whose results from the offset onward each have
    an alternative 0, [onresult] returns; the final buffer becomes
    trim(previous final buffer + each final result's alternative-0 transcript
    plus a space, in order); the interim buffer (state cell and ref) becomes
    the trimmed concatenation of the non-final alternative-0 transcripts of
    that batch alone, whatever it held before. *)
Theorem onresult_buffers (ev : SpeechRecognitionEvent) (w : World) :
  wellFormed ev = true ->
  let o := React.dispatch (onresult ev) w in
  React.returned o = true /\
  finalTranscript (React.state (React.world o)) =
    trim (finalTranscript (React.state w) ++ concatFinal (batchResults ev)) /\
  interimTranscript (React.state (React.world o)) =
    trim (concatInterim (batchResults ev)) /\
  latestInterimRef (React.store (React.world o)) =
    trim (concatInterim (batchResults ev)).
Proof.
  intros H o. subst o. rewrite (onresult_world ev w H). simpl. auto.
Qed.

Lemma onresult_buffers_witness :
  wellFormed mixedBatch = true /\
  let o := React.dispatch (onresult mixedBatch) abruptSession in
  React.returned o = true /\
  finalTranscript (React.state (React.world o)) =
    trim (finalTranscript (React.state abruptSession)
          ++ concatFinal (batchResults mixedBatch)) /\
  interimTranscript (React.state (React.world o)) =
    trim (concatInterim (batchResults mixedBatch)) /\
  latestInterimRef (React.store (React.world o)) =
    trim (concatInterim (batchResults mixedBatch)).
Proof.
  split; [reflexivity | apply (onresult_buffers mixedBatch abruptSession); reflexivity].
Defined.

(** C2: the transcript the hook returns is trim(final + " " + interim); and
    from the start of a session, the final batch "hello" followed by the
    interim batch "how are you" gives the transcript "hello how are you". *)
Theorem transcript_hello_how_are_you :
  (forall s : State,
     transcriptOf s = trim (finalTranscript s ++ lit " " ++ interimTranscript s)) /\
  (forall w : World,
     exists w' : World,
       batches [single true "hello"; single false "how are you"]
               (React.world (React.dispatch onstart w)) = Some w' /\
       finalTranscript (React.state w') = lit "hello" /\
       interimTranscript (React.state w') = lit "how are you" /\
       transcriptOf (React.state w') = lit "hello how are you").
Proof.
  split; [reflexivity |].
  intros [s r]. eexists. split; [reflexivity |].
  repeat split; reflexivity.
Qed.

(** The trailing separator is trimmed with the rest: the final transcripts
    of two successive batches are joined without a space between them. *)
Example final_batches_joined :
  forall w : World,
    exists w' : World,
      batches [single true "hello"; single true "world"]
              (React.world (React.dispatch onstart w)) = Some w' /\
      finalTranscript (React.state w') = lit "helloworld".
Proof.
  intros [s r]. eexists. split; reflexivity.
Qed.

(** What [onend] does to a live session.  The updater it queues reads
    [latestInterimRef.current] at the render, after the handler has reset it:
    what is appended to the final buffer is a space and the empty string. *)
Lemma onend_world (w : World) :
  isListening (React.state w) = true ->
  React.world (React.dispatch onend w) =
  React.mkWorld
    (mkState (settings (React.state w))
       (if truthy (latestInterimRef (React.store w))
        then trim (finalTranscript (React.state w) ++ lit " " ++ [])
        else finalTranscript (React.state w))
       [] false (error (React.state w)))
    (mkRefs (recognitionRef (React.store w)) []).
Proof.
  intros _. destruct w as [s r].
  unfold React.dispatch, onend, React.bind, React.readRefs. simpl.
  destruct (truthy (latestInterimRef r)); reflexivity.
Qed.

(** C3 fails on the code: when the live session whose interim buffer holds
    "testing" (and whose final buffer is empty) ends, the interim buffer is
    emptied but the final buffer and the transcript stay empty: "testing" is
    lost instead of being appended. *)
Theorem onend_loses_interim :
  let o := React.dispatch onend abruptSession in
  interimTranscript (React.state abruptSession) = lit "testing" /\
  latestInterimRef (React.store abruptSession) = lit "testing" /\
  finalTranscript (React.state (React.world o)) = [] /\
  interimTranscript (React.state (React.world o)) = [] /\
  latestInterimRef (React.store (React.world o)) = [] /\
  transcriptOf (React.state (React.world o)) = [] /\
  finalTranscript (React.state (React.world o)) <> lit "testing".
Proof.
  vm_compute. repeat split; discriminate.
Qed.

(** C4: while listening, [startListening] sets the error AlreadyListening
    ("Recognition is already active."), does not call the platform, and
    leaves the final buffer, the interim buffer (state cell and ref) and the
    listening flag as they were. *)
Theorem startListening_while_listening (w : World) (start : StartResult) :
  isListening (React.state w) = true ->
  let o := React.dispatch (startListening (React.state w) start) w in
  error (React.state (React.world o)) = Some alreadyListening /\
  code alreadyListening = lit "AlreadyListening" /\
  finalTranscript (React.state (React.world o)) = finalTranscript (React.state w) /\
  interimTranscript (React.state (React.world o)) = interimTranscript (React.state w) /\
  latestInterimRef (React.store (React.world o)) = latestInterimRef (React.store w) /\
  isListening (React.state (React.world o)) = true /\
  React.issued o = [].
Proof.
  intros H o. subst o. destruct w as [s r]. simpl in H.
  unfold React.dispatch, startListening, React.bind, React.readRefs.
  cbn [React.state React.store React.refs].
  rewrite H, andb_false_r. simpl. repeat split; assumption.
Qed.

Lemma startListening_while_listening_witness :
  isListening (React.state abruptSession) = true /\
  let o := React.dispatch
             (startListening (React.state abruptSession) Started) abruptSession in
  error (React.state (React.world o)) = Some alreadyListening /\
  code alreadyListening = lit "AlreadyListening" /\
  finalTranscript (React.state (React.world o)) = finalTranscript (React.state abruptSession) /\
  interimTranscript (React.state (React.world o)) = interimTranscript (React.state abruptSession) /\
  latestInterimRef (React.store (React.world o)) = latestInterimRef (React.store abruptSession) /\
  isListening (React.state (React.world o)) = true /\
  React.issued o = [].
Proof.
  split; [reflexivity |].
  apply (startListening_while_listening abruptSession Started). reflexivity.
Defined.

(** C5: [onerror] empties the final buffer and the interim buffer (state cell
    and ref), records the descriptor made of the event's error code and its
    message (the default message when the event has none), and sets
    [isListening] to false; this from every state, a listening one
    included. *)
Theorem onerror_resets (w : World) (event : SpeechRecognitionErrorEvent) :
  let o := React.dispatch (onerror event) w in
  finalTranscript (React.state (React.world o)) = [] /\
  interimTranscript (React.state (React.world o)) = [] /\
  latestInterimRef (React.store (React.world o)) = [] /\
  transcriptOf (React.state (React.world o)) = [] /\
  isListening (React.state (React.world o)) = false /\
  error (React.state (React.world o)) =
    Some (mkError (ev_error event) (messageOrDefault (ev_message event))).
Proof.
  destruct w as [s r]. simpl. repeat split; reflexivity.
Qed.

End RecognitionClaims.

Section RecognitionSequences.

Import Recognition.

Lemma forallb_skipn {A} (p : A -> bool) (n : nat) (l : list A) :
  forallb p l = true -> forallb p (skipn n l) = true.
Proof.
  revert l. induction n as [| n IH]; intros [| a l] H; simpl; auto.
  simpl in H. apply andb_true_iff in H. now apply IH.
Qed.

Lemma concatInterim_all_final (rs : list SpeechRecognitionResult) :
  forallb isFinal rs = true -> concatInterim rs = [].
Proof.
  unfold concatInterim.
  induction rs as [| r rs IH]; simpl; intros H; [reflexivity |].
  apply andb_true_iff in H. destruct H as [Hr Hrs].
  rewrite Hr. simpl. now apply IH.
Qed.

(** A batch of final results only empties the interim buffer. *)
Lemma onresult_all_final (ev : SpeechRecognitionEvent) (w : World) :
  allFinal ev = true -> wellFormed ev = true ->
  let o := React.dispatch (onresult ev) w in
  React.returned o = true /\
  interimTranscript (React.state (React.world o)) = [] /\
  latestInterimRef (React.store (React.world o)) = [].
Proof.
  intros Hf Hw o. subst o. rewrite (onresult_world ev w Hw). simpl.
  unfold batchResults. rewrite concatInterim_all_final.
  - auto.
  - now apply forallb_skipn.
Qed.

Lemma batches_all_final (evs : list SpeechRecognitionEvent) :
  forall w : World,
    evs <> [] -> Forall finalBatch evs ->
    exists w' : World,
      batches evs w = Some w' /\
      interimTranscript (React.state w') = [] /\
      latestInterimRef (React.store w') = [].
Proof.
  induction evs as [| ev evs IH]; intros w Hne Hall; [congruence |].
  inversion Hall as [| ? ? [Hf Hw] Hrest]; subst.
  destruct (onresult_all_final ev w Hf Hw) as (Hret & Hi & Hl).
  simpl. rewrite Hret.
  destruct evs as [| ev' evs'].
  - simpl. eexists. split; [reflexivity | split; assumption].
  - apply IH; [discriminate | assumption].
Qed.

Lemma Forall_firstn_keep {A} (P : A -> Prop) (n : nat) (l : list A) :
  Forall P l -> Forall P (firstn n l).
Proof.
  revert l. induction n as [| n IH]; intros [| a l] H; simpl; auto.
  inversion H; subst. constructor; auto.
Qed.

(** C6: in a sequence of batches whose results are all final (each with an
    alternative 0), after each batch, i.e. after the first [n] batches for
    every [n] from 1 to the length, the handlers have all returned and the
    interim buffer (state cell and ref) is empty, whatever the world the
    sequence started from. *)
Theorem all_final_interim_empty
    (evs : list SpeechRecognitionEvent) (w : World) (n : nat) :
  Forall finalBatch evs ->
  0 < n <= List.length evs ->
  exists w' : World,
    batches (firstn n evs) w = Some w' /\
    interimTranscript (React.state w') = [] /\
    latestInterimRef (React.store w') = [].
Proof.
  intros Hall [Hpos Hlen].
  apply batches_all_final.
  - destruct n as [| n]; [lia |].
    destruct evs as [| ev evs]; [simpl in Hlen; lia | discriminate].
  - now apply Forall_firstn_keep.
Qed.

Lemma all_final_interim_empty_witness :
  Forall finalBatch [single true "hello"; single true "world"] /\
  0 < 2 <= List.length [single true "hello"; single true "world"] /\
  exists w' : World,
    batches (firstn 2 [single true "hello"; single true "world"]) abruptSession
      = Some w' /\
    interimTranscript (React.state w') = [] /\
    latestInterimRef (React.store w') = [].
Proof.
  assert (H : Forall finalBatch [single true "hello"; single true "world"])
    by (repeat constructor).
  split; [exact H |].
  split; [simpl; lia |].
  apply (all_final_interim_empty _ abruptSession 2 H). simpl; lia.
Defined.

Lemma mount_unavailable (p : PartialSettings) :
  unavailable (mount false p) /\
  error (React.state (mount false p)) = Some browserNotSupported.
Proof.
  unfold unavailable. simpl. auto.
Qed.

Lemma request_unavailable (q : Request) (w : World) :
  unavailable w -> unavailable (request false q w).
Proof.
  intros (Hl & Hr & He). destruct w as [s r]. simpl in Hl, Hr.
  unfold unavailable.
  destruct q as [start | | p]; unfold request, React.dispatch;
    cbn [React.state React.store React.refs].
  - unfold startListening, React.bind, React.readRefs.
    cbn [React.refs]. rewrite Hr, Hl. simpl. auto.
  - unfold stopListening, React.bind, React.readRefs.
    cbn [React.refs]. rewrite Hr. simpl. auto.
  - simpl. auto.
Qed.

(** Where recognition is unavailable, no request reaches the platform. *)
Lemma unavailable_no_call (w : World) (start : StartResult) :
  unavailable w ->
  React.issued (React.dispatch (startListening (React.state w) start) w) = [] /\
  React.issued (React.dispatch (stopListening (React.state w)) w) = [].
Proof.
  intros (Hl & Hr & He). destruct w as [s r]. simpl in Hl, Hr.
  unfold React.dispatch, startListening, stopListening, React.bind,
    React.readRefs.
  cbn [React.state React.store React.refs]. rewrite Hr, Hl. simpl. auto.
Qed.

(** C7: where the platform has no speech recognition, the effect of the
    first render records the error BrowserNotSupported and creates no
    recognition object; after every sequence of start, stop and settings
    requests the hook is still idle ([isListening] false), still has no
    recognition object, and shows an error: BrowserNotSupported, or
    NotInitialized once a start was requested. *)
Theorem unsupported_stays_idle (p : PartialSettings) (qs : list Request) :
  error (React.state (mount false p)) = Some browserNotSupported /\
  let w := requests false qs (mount false p) in
  isListening (React.state w) = false /\
  recognitionRef (React.store w) = None /\
  (error (React.state w) = Some browserNotSupported \/
   error (React.state w) = Some notInitialized).
Proof.
  split; [apply mount_unavailable |].
  assert (H : forall w, unavailable w -> unavailable (requests false qs w)).
  { induction qs as [| q qs IH]; intros w Hw; simpl; [assumption |].
    apply IH. now apply request_unavailable. }
  apply H. apply mount_unavailable.
Qed.

(** C10: when not listening, [stopListening] does nothing: it sets no state,
    writes no ref and does not call the platform; the world after it is the
    world before it, the final buffer, the interim buffer, the listening flag
    and the stored error included. *)
Theorem stopListening_not_listening (w : World) :
  isListening (React.state w) = false ->
  React.dispatch (stopListening (React.state w)) w = React.mkOutcome true w [].
Proof.
  intros H. destruct w as [s r]. simpl in H.
  unfold React.dispatch, stopListening, React.bind, React.readRefs.
  cbn [React.state React.store React.refs]. rewrite H, andb_false_r.
  reflexivity.
Qed.

Lemma stopListening_not_listening_witness :
  isListening (React.state stoppedWithError) = false /\
  React.dispatch (stopListening (React.state stoppedWithError)) stoppedWithError
    = React.mkOutcome true stoppedWithError [].
Proof.
  split; [reflexivity |].
  apply (stopListening_not_listening stoppedWithError). reflexivity.
Defined.

End RecognitionSequences.

(** ** Numbers: the order of binary64 values *)

Section NumberOrder.

Lemma cmpFinite_spec (e1 : Z) (m1 : positive) (e2 : Z) (m2 : positive) :
  match cmpFinite e1 m1 e2 m2 with
  | Lt => (e1 < e2)%Z \/ (e1 = e2 /\ (m1 < m2)%positive)
  | Eq => e1 = e2 /\ m1 = m2
  | Gt => (e2 < e1)%Z \/ (e1 = e2 /\ (m2 < m1)%positive)
  end.
Proof.
  unfold cmpFinite.
  destruct (Z.compare_spec e1 e2); auto.
  destruct (Pos.compare_spec m1 m2); auto.
Qed.

Lemma SFcompare_finite (s1 : bool) (m1 : positive) (e1 : Z)
                       (s2 : bool) (m2 : positive) (e2 : Z) :
  SFcompare (S754_finite s1 m1 e1) (S754_finite s2 m2 e2) =
  Some match s1, s2 with
       | true, false => Lt
       | false, true => Gt
       | false, false => cmpFinite e1 m1 e2 m2
       | true, true => CompOpp (cmpFinite e1 m1 e2 m2)
       end.
Proof.
  destruct s1, s2; try reflexivity; unfold cmpFinite; simpl;
    destruct (Z.compare e1 e2); reflexivity.
Qed.

Lemma cmpFinite_antisym (e1 : Z) (m1 : positive) (e2 : Z) (m2 : positive) :
  cmpFinite e2 m2 e1 m1 = CompOpp (cmpFinite e1 m1 e2 m2).
Proof.
  unfold cmpFinite. rewrite (Z.compare_antisym e1 e2).
  destruct (Z.compare e1 e2); simpl; auto. apply Pos.compare_antisym.
Qed.

Lemma cmpFinite_refl (e : Z) (m : positive) : cmpFinite e m e m = Eq.
Proof. unfold cmpFinite. now rewrite Z.compare_refl, Pos.compare_refl. Qed.

Lemma cmpFinite_trans (e1 : Z) (m1 : positive) (e2 : Z) (m2 : positive)
                      (e3 : Z) (m3 : positive) :
  cmpFinite e1 m1 e2 m2 = Lt -> cmpFinite e2 m2 e3 m3 = Lt ->
  cmpFinite e1 m1 e3 m3 = Lt.
Proof.
  intros H1 H2.
  pose proof (cmpFinite_spec e1 m1 e2 m2) as A. rewrite H1 in A.
  pose proof (cmpFinite_spec e2 m2 e3 m3) as B. rewrite H2 in B.
  pose proof (cmpFinite_spec e1 m1 e3 m3) as C.
  destruct (cmpFinite e1 m1 e3 m3); auto; lia.
Qed.

Lemma SFcompare_antisym (a b : number) :
  SFcompare b a = option_map CompOpp (SFcompare a b).
Proof.
  destruct a as [[]|[]| |sa ma ea], b as [[]|[]| |sb mb eb]; try reflexivity;
    try (destruct sa; reflexivity); try (destruct sb; reflexivity).
  rewrite !SFcompare_finite. simpl.
  destruct sa, sb; simpl; try reflexivity;
    rewrite (cmpFinite_antisym ea ma eb mb); try reflexivity.
Qed.

Lemma SFcompare_refl (a : number) : isNaN a = false -> SFcompare a a = Some Eq.
Proof.
  destruct a as [[]|[]| |s m e]; intros H; try reflexivity; try discriminate.
  rewrite SFcompare_finite, cmpFinite_refl. now destruct s.
Qed.

Lemma SFcompare_total (a b : number) :
  isNaN a = false -> isNaN b = false -> exists c, SFcompare a b = Some c.
Proof.
  destruct a as [[]|[]| |sa ma ea], b as [[]|[]| |sb mb eb]; simpl;
    intros Ha Hb; try discriminate; eauto.
Qed.

Lemma lessThan_trans (a b c : number) :
  lessThan a b = true -> lessThan b c = true -> lessThan a c = true.
Proof.
  unfold lessThan, SFltb.
  destruct a as [[]|[]| |sa ma ea], b as [[]|[]| |sb mb eb],
           c as [[]|[]| |sc mc ec];
    rewrite ?SFcompare_finite;
    try (simpl; intros; (discriminate || reflexivity)).
  all: try (destruct sa; simpl; intros; (discriminate || reflexivity)).
  all: try (destruct sb; simpl; intros; (discriminate || reflexivity)).
  all: try (destruct sc; simpl; intros; (discriminate || reflexivity)).
  all: try (destruct sa, sb; simpl; intros; (discriminate || reflexivity)).
  all: try (destruct sa, sc; simpl; intros; (discriminate || reflexivity)).
  all: try (destruct sb, sc; simpl; intros; (discriminate || reflexivity)).
  destruct sa, sb, sc; simpl; intros H1 H2; try discriminate; try reflexivity.
  - pose proof (cmpFinite_antisym ea ma eb mb) as A1.
    pose proof (cmpFinite_antisym eb mb ec mc) as A2.
    pose proof (cmpFinite_antisym ec mc ea ma) as A3.
    destruct (cmpFinite ea ma eb mb); try discriminate.
    destruct (cmpFinite eb mb ec mc); try discriminate.
    simpl in A1, A2.
    rewrite A3, (cmpFinite_trans _ _ _ _ _ _ A2 A1). reflexivity.
  - destruct (cmpFinite ea ma eb mb) eqn:E1; try discriminate.
    destruct (cmpFinite eb mb ec mc) eqn:E2; try discriminate.
    now rewrite (cmpFinite_trans _ _ _ _ _ _ E1 E2).
Qed.

Lemma lessThan_lessEq (a b : number) :
  lessThan a b = true -> lessEq a b = true.
Proof.
  unfold lessThan, lessEq, SFltb, SFleb.
  now destruct (SFcompare a b) as [[]|].
Qed.

Lemma lessThan_asym (a b : number) :
  lessThan a b = true -> lessThan b a = false.
Proof.
  unfold lessThan, SFltb. rewrite (SFcompare_antisym a b).
  now destruct (SFcompare a b) as [[]|].
Qed.

Lemma lessEq_refl (a : number) : isNaN a = false -> lessEq a a = true.
Proof.
  intros H. unfold lessEq, SFleb. now rewrite SFcompare_refl.
Qed.

Lemma strictEq_refl (a : number) : isNaN a = false -> strictEq a a = true.
Proof.
  intros H. unfold strictEq, SFeqb. now rewrite SFcompare_refl.
Qed.

(** Neither below nor above: equal. *)
Lemma not_lessThan_strictEq (a b : number) :
  isNaN a = false -> isNaN b = false ->
  lessThan a b = false -> lessThan b a = false -> strictEq a b = true.
Proof.
  intros Ha Hb. unfold lessThan, strictEq, SFltb, SFeqb.
  rewrite (SFcompare_antisym a b).
  destruct (SFcompare_total a b Ha Hb) as [c Hc]. rewrite Hc.
  now destruct c.
Qed.

End NumberOrder.

(** ** The synthesis hook *)

Section Clamping.

(** [Math.max(lo, Math.min(hi, x))] with the bounds of the code and [x] not
    NaN: the smaller of [x] and [hi], then the larger of that and [lo]. *)
Lemma clamp_code (lo hi x : number) :
  properBounds lo hi = true -> isNaN x = false ->
  Math_max [lo; Math_min [hi; x]] =
  let m := if lessThan x hi then x else hi in
  if lessThan lo m then m else lo.
Proof.
  intros Hb Hx.
  destruct lo as [[]|[]| |[] ml el]; try discriminate Hb;
    destruct hi as [[]|[]| |[] mh eh]; try discriminate Hb;
    destruct x as [[]|[]| |sx mx ex]; try discriminate Hx;
    unfold Math_max, Math_min; cbn -[lessThan];
    match goal with
    | |- context [lessThan ?a (S754_finite false mh eh)] =>
        destruct (lessThan a (S754_finite false mh eh)) eqn:E
    end; cbn -[lessThan]; reflexivity.
Qed.

(** The result lies between the bounds. *)
Lemma clamp_code_within (lo hi x : number) :
  properBounds lo hi = true -> lessThan lo hi = true -> isNaN x = false ->
  within lo hi (Math_max [lo; Math_min [hi; x]]) = true.
Proof.
  intros Hb Hlh Hx. rewrite (clamp_code lo hi x Hb Hx). cbv zeta.
  assert (Hlo : isNaN lo = false) by (destruct lo as [[]|[]| |[] ? ?]; easy).
  assert (Hhi : isNaN hi = false)
    by (destruct lo as [[]|[]| |[] ? ?], hi as [[]|[]| |[] ? ?]; easy).
  unfold within.
  destruct (lessThan x hi) eqn:E1.
  - destruct (lessThan lo x) eqn:E2.
    + now rewrite (lessThan_lessEq _ _ E1), (lessThan_lessEq _ _ E2).
    + now rewrite (lessEq_refl lo Hlo), (lessThan_lessEq _ _ Hlh).
  - rewrite Hlh. now rewrite (lessEq_refl hi Hhi), (lessThan_lessEq _ _ Hlh).
Qed.

(** The result is the value clamped, as a number (the two can differ in the
    sign of a zero only). *)
Lemma clamp_code_clamp (lo hi x : number) :
  properBounds lo hi = true -> lessThan lo hi = true -> isNaN x = false ->
  strictEq (Math_max [lo; Math_min [hi; x]]) (clamp lo hi x) = true.
Proof.
  intros Hb Hlh Hx. rewrite (clamp_code lo hi x Hb Hx). cbv zeta.
  assert (Hlo : isNaN lo = false) by (destruct lo as [[]|[]| |[] ? ?]; easy).
  assert (Hhi : isNaN hi = false)
    by (destruct lo as [[]|[]| |[] ? ?], hi as [[]|[]| |[] ? ?]; easy).
  unfold clamp.
  destruct (lessThan x lo) eqn:E0.
  - rewrite (lessThan_trans x lo hi E0 Hlh), (lessThan_asym _ _ E0).
    now apply strictEq_refl.
  - destruct (lessThan hi x) eqn:E1.
    + rewrite (lessThan_asym _ _ E1), Hlh. now apply strictEq_refl.
    + destruct (lessThan x hi) eqn:E2.
      * destruct (lessThan lo x) eqn:E3; [now apply strictEq_refl |].
        now apply not_lessThan_strictEq.
      * rewrite Hlh. now apply not_lessThan_strictEq.
Qed.

(** Below the lower bound the result is the lower bound, above the upper
    bound it is the upper bound. *)
Lemma clamp_code_out (lo hi x : number) :
  properBounds lo hi = true -> lessThan lo hi = true -> isNaN x = false ->
  (lessThan x lo = true -> Math_max [lo; Math_min [hi; x]] = lo) /\
  (lessThan hi x = true -> Math_max [lo; Math_min [hi; x]] = hi).
Proof.
  intros Hb Hlh Hx. rewrite (clamp_code lo hi x Hb Hx). cbv zeta.
  split; intros E.
  - now rewrite (lessThan_trans x lo hi E Hlh), (lessThan_asym _ _ E).
  - now rewrite (lessThan_asym _ _ E), Hlh.
Qed.

End Clamping.

Section SynthesisClaims.

Import Synthesis.

(** Merging the same partial settings again changes nothing. *)
Lemma spread_idempotent (s : SpeechSynthesisSettings) (p : PartialSettings) :
  spread (spread s p) p = spread s p.
Proof.
  destruct p as [l r pi v n]. unfold spread. simpl.
  destruct l, r, pi, v, n; reflexivity.
Qed.

(** What [updateSettings] does to the world. *)
Lemma updateSettings_world (p : PartialSettings) (w : World) :
  React.world (React.dispatch (updateSettings p) w) =
  React.mkWorld
    (mkState (spread (settings (React.state w)) p) (error (React.state w))
             (isSpeaking (React.state w)) (availableVoices (React.state w)))
    (React.store w).
Proof. reflexivity. Qed.

(** C8: [updateSettings({rate: 0.5})] applied twice gives the world that
    applying it once gives, whether a render separates the two calls or one
    handler makes both; the rate is then 0.5 and the other settings are those
    from before. *)
Theorem updateSettings_rate_idempotent (w : World) :
  let once := React.world (React.dispatch (updateSettings rateHalf) w) in
  let twice := React.world (React.dispatch (updateSettings rateHalf) once) in
  let batched := React.world (React.dispatch (updateSettingsTwice rateHalf) w) in
  twice = once /\
  batched = once /\
  settings (React.state once) =
    mkSettings (lang (settings (React.state w))) n0_5
               (pitch (settings (React.state w)))
               (volume (settings (React.state w)))
               (voiceName (settings (React.state w))).
Proof.
  intros once twice batched. subst once twice batched.
  repeat split.
Qed.

(** C9, as stated, fails: with the rate NaN the utterance is given the rate
    NaN, which is not in [0.1, 10]; with an empty text, or where synthesis is
    not supported, the request is rejected with the error UnsupportedOrNoText
    and no utterance is made. *)
Lemma speak_not_always_clamped :
  (exists u : SpeechSynthesisUtterance,
     spoken (React.dispatch
               (speak true (React.state freshSynthesis) (lit "hi") (Some rateNaN))
               freshSynthesis) = Some u /\
     u_rate u = S754_nan /\
     within n0_1 n10 (u_rate u) = false) /\
  (let o := React.dispatch
              (speak true (React.state freshSynthesis) [] (Some outOfRange))
              freshSynthesis in
   spoken o = None /\ React.issued o = [] /\
   error (React.state (React.world o)) = Some unsupportedOrNoText) /\
  (let o := React.dispatch
              (speak false (React.state freshSynthesis) (lit "hi") (Some outOfRange))
              freshSynthesis in
   spoken o = None /\ React.issued o = [] /\
   error (React.state (React.world o)) = Some unsupportedOrNoText).
Proof.
  split.
  - eexists. split; [reflexivity |]. split; reflexivity.
  - repeat split.
Qed.

(** C9, amended: where synthesis is supported, for every non-empty text and
    all settings whose merged rate, pitch and volume are not NaN, [speak]
    hands the platform one utterance, with that text, whose rate lies in
    [0.1, 10], whose pitch lies in [0, 2] and whose volume lies in [0, 1], each
    being the merged value clamped to its interval; the request is not
    rejected (no error is set). *)
Theorem speak_clamps (w : World) (text : jsstring)
    (customSettings : option PartialSettings) :
  let finalSettings :=
    spread (settings (React.state w)) (orElse customSettings noSettings) in
  text <> [] ->
  isNaN (rate finalSettings) = false ->
  isNaN (pitch finalSettings) = false ->
  isNaN (volume finalSettings) = false ->
  let o := React.dispatch (speak true (React.state w) text customSettings) w in
  exists u : SpeechSynthesisUtterance,
    spoken o = Some u /\
    u_text u = text /\
    error (React.state (React.world o)) = None /\
    within n0_1 n10 (u_rate u) = true /\
    strictEq (u_rate u) (clamp n0_1 n10 (rate finalSettings)) = true /\
    within n0 n2 (u_pitch u) = true /\
    strictEq (u_pitch u) (clamp n0 n2 (pitch finalSettings)) = true /\
    within n0 n1 (u_volume u) = true /\
    strictEq (u_volume u) (clamp n0 n1 (volume finalSettings)) = true.
Proof.
  intros finalSettings Ht Hr Hp Hv o.
  destruct text as [| c text]; [congruence |].
  destruct w as [s r].
  eexists. split; [reflexivity |].
  cbn [u_text u_rate u_pitch u_volume buildUtterance React.state].
  fold finalSettings.
  split; [reflexivity |]. split; [reflexivity |].
  repeat split;
    first [ apply clamp_code_within | apply clamp_code_clamp ];
    solve [ reflexivity | assumption ].
Qed.

Lemma speak_clamps_witness :
  let finalSettings :=
    spread (settings (React.state freshSynthesis))
           (orElse (Some outOfRange) noSettings) in
  let o := React.dispatch
             (speak true (React.state freshSynthesis) (lit "hi") (Some outOfRange))
             freshSynthesis in
  lit "hi" <> [] /\
  isNaN (rate finalSettings) = false /\
  isNaN (pitch finalSettings) = false /\
  isNaN (volume finalSettings) = false /\
  exists u : SpeechSynthesisUtterance,
    spoken o = Some u /\
    u_text u = lit "hi" /\
    error (React.state (React.world o)) = None /\
    within n0_1 n10 (u_rate u) = true /\
    strictEq (u_rate u) (clamp n0_1 n10 (rate finalSettings)) = true /\
    within n0 n2 (u_pitch u) = true /\
    strictEq (u_pitch u) (clamp n0 n2 (pitch finalSettings)) = true /\
    within n0 n1 (u_volume u) = true /\
    strictEq (u_volume u) (clamp n0 n1 (volume finalSettings)) = true.
Proof.
  split; [discriminate |].
  split; [reflexivity |]. split; [reflexivity |]. split; [reflexivity |].
  apply (speak_clamps freshSynthesis (lit "hi") (Some outOfRange));
    [discriminate | reflexivity | reflexivity | reflexivity].
Defined.

(** The same call, evaluated: rate 1000 becomes 10, pitch -2 becomes 0 and
    volume +Infinity becomes 1. *)
Example speak_out_of_range :
  spoken (React.dispatch
            (speak true (React.state freshSynthesis) (lit "hi") (Some outOfRange))
            freshSynthesis)
  = Some (mkUtterance (lit "hi") (lit "en-US") n10 n0 n1 None).
Proof. reflexivity. Qed.

End SynthesisClaims.

(** * Further properties of the code *)

(** ** Trimming *)

Section TrimFacts.

Import Session.

Lemma trimStart_app (l m : jsstring) :
  trimStart (l ++ m) =
  match trimStart l with
  | [] => trimStart m
  | c :: t => (c :: t) ++ m
  end.
Proof.
  induction l as [| c l IH]; simpl; [reflexivity |].
  destruct (isWhiteSpace c); [exact IH | reflexivity].
Qed.

Lemma trimStart_length (s : jsstring) :
  List.length (trimStart s) <= List.length s.
Proof.
  induction s as [| c s IH]; simpl; [lia |].
  destruct (isWhiteSpace c); simpl; lia.
Qed.

Lemma trimEnd_length (s : jsstring) :
  List.length (trimEnd s) <= List.length s.
Proof.
  unfold trimEnd. rewrite length_rev.
  pose proof (trimStart_length (rev s)) as H. now rewrite length_rev in H.
Qed.

(** A string that [trimStart] keeps is empty or starts with a character
    that is not whitespace. *)
Lemma trimStart_fixed (s : jsstring) :
  trimStart s = s ->
  s = [] \/ exists c t, s = c :: t /\ isWhiteSpace c = false.
Proof.
  destruct s as [| c t]; [now left |]. simpl.
  destruct (isWhiteSpace c) eqn:E; intros H.
  - pose proof (trimStart_length t) as L. rewrite H in L. simpl in L. lia.
  - right. now exists c, t.
Qed.

Lemma trimStart_idem (s : jsstring) : trimStart (trimStart s) = trimStart s.
Proof.
  induction s as [| c s IH]; simpl; [reflexivity |].
  destruct (isWhiteSpace c) eqn:E; [exact IH |]. simpl. now rewrite E.
Qed.

Lemma trimEnd_idem (s : jsstring) : trimEnd (trimEnd s) = trimEnd s.
Proof.
  unfold trimEnd. now rewrite rev_involutive, trimStart_idem.
Qed.

(** A trimmed string is kept by both halves of [trim]. *)
Lemma trimmed_start (s : jsstring) : trimmed s -> trimStart s = s.
Proof.
  unfold trimmed, trim. intros H.
  assert (L : List.length s <= List.length (trimStart s)).
  { rewrite <- H at 1. apply trimEnd_length. }
  destruct s as [| c t]; [reflexivity |]. simpl in *.
  destruct (isWhiteSpace c); [| reflexivity].
  pose proof (trimStart_length t). lia.
Qed.

Lemma trimmed_end (s : jsstring) : trimmed s -> trimEnd s = s.
Proof.
  intros H. pose proof (trimmed_start s H) as E.
  unfold trimmed, trim in H. now rewrite E in H.
Qed.

Lemma trimEnd_app_fixed (a b : jsstring) :
  trimEnd a = a -> trimEnd (a ++ b) = a ++ trimEnd b.
Proof.
  unfold trimEnd. intros H.
  assert (Ha : trimStart (rev a) = rev a).
  { apply (f_equal (@rev N)) in H. now rewrite rev_involutive in H. }
  rewrite rev_app_distr, trimStart_app.
  destruct (trimStart (rev b)) as [| c t].
  - rewrite Ha, rev_involutive. simpl. now rewrite app_nil_r.
  - rewrite rev_app_distr, rev_involutive. reflexivity.
Qed.

Lemma trimStart_app_fixed (a b : jsstring) :
  trimStart a = a -> a <> [] -> trimStart (a ++ b) = a ++ b.
Proof.
  intros H Hne. destruct (trimStart_fixed a H) as [-> | (c & t & -> & E)];
    [congruence |].
  simpl. now rewrite E.
Qed.

(** Trimming a trimmed buffer followed by more text keeps the buffer and
    trims the end of the text only. *)
Lemma trim_app_trimmed (a b : jsstring) :
  trimmed a -> a <> [] -> trim (a ++ b) = a ++ trimEnd b.
Proof.
  intros H Hne. unfold trim.
  rewrite (trimStart_app_fixed a b (trimmed_start a H) Hne).
  apply trimEnd_app_fixed. now apply trimmed_end.
Qed.

(** What [trim] returns is trimmed. *)
Lemma trim_idem (s : jsstring) : trim (trim s) = trim s.
Proof.
  unfold trim at 2 3.
  assert (H : trimStart (trimEnd (trimStart s)) = trimEnd (trimStart s)).
  { destruct (trimStart_fixed (trimStart s) (trimStart_idem s))
      as [-> | (c & t & -> & E)]; [reflexivity |].
    change (c :: t) with ([c] ++ t).
    rewrite trimEnd_app_fixed by (unfold trimEnd; simpl; now rewrite E).
    simpl. now rewrite E. }
  unfold trim. rewrite H. apply trimEnd_idem.
Qed.

Lemma trim_trimmed (s : jsstring) : trimmed (trim s).
Proof. apply trim_idem. Qed.

Lemma trimmed_nil : trimmed [].
Proof. reflexivity. Qed.

End TrimFacts.

(** ** The recognition hook, event by event *)

Section RecognitionEvents.

Import Recognition Session.

(** X1: [onresult] never loses committed text.  When the final buffer is
    trimmed (as every buffer the hook produces is), the new final buffer is
    the old one followed by a suffix; when the old one is not empty the
    suffix is the batch's final pieces with only their trailing whitespace
    removed, so nothing separates the old text from the new. *)
Theorem onresult_final_only_grows (ev : SpeechRecognitionEvent) (w : World) :
  wellFormed ev = true ->
  trimmed (finalTranscript (React.state w)) ->
  exists suffix : jsstring,
    finalTranscript (React.state (handle (onresult ev) w)) =
      finalTranscript (React.state w) ++ suffix /\
    (finalTranscript (React.state w) <> [] ->
     suffix = trimEnd (concatFinal (batchResults ev))).
Proof.
  intros Hw Ht. unfold handle. rewrite (onresult_world ev w Hw). simpl.
  destruct (finalTranscript (React.state w)) as [| c f] eqn:E.
  - eexists. split; [reflexivity | congruence].
  - exists (trimEnd (concatFinal (batchResults ev))). split; [| reflexivity].
    apply trim_app_trimmed; [exact Ht | discriminate].
Qed.

Lemma onresult_final_only_grows_witness :
  wellFormed mixedBatch = true /\
  trimmed (finalTranscript (React.state liveHello)) /\
  exists suffix : jsstring,
    finalTranscript (React.state (handle (onresult mixedBatch) liveHello)) =
      finalTranscript (React.state liveHello) ++ suffix /\
    (finalTranscript (React.state liveHello) <> [] ->
     suffix = trimEnd (concatFinal (batchResults mixedBatch))).
Proof.
  split; [reflexivity |]. split; [reflexivity |].
  apply (onresult_final_only_grows mixedBatch liveHello); reflexivity.
Defined.

(** X3: an offset at or beyond the number of results leaves nothing to
    process: [onresult] returns, empties the interim buffer (state cell and
    ref), clears the error and keeps the final buffer, trimmed. *)
Theorem onresult_offset_beyond (ev : SpeechRecognitionEvent) (w : World) :
  List.length (results ev) <= resultIndex ev ->
  React.dispatch (onresult ev) w =
  React.mkOutcome true
    (React.mkWorld
       (mkState (settings (React.state w))
                (trim (finalTranscript (React.state w)))
                [] (isListening (React.state w)) None)
       (mkRefs (recognitionRef (React.store w)) []))
    [].
Proof.
  intros H.
  assert (E : batchResults ev = []) by (now apply skipn_all2).
  rewrite onresult_world by (unfold wellFormed; now rewrite E).
  rewrite E. unfold concatFinal, concatInterim. simpl.
  now rewrite app_nil_r.
Qed.

Lemma onresult_offset_beyond_witness :
  List.length (results (mkEvent 4 (results mixedBatch)))
    <= resultIndex (mkEvent 4 (results mixedBatch)) /\
  React.dispatch (onresult (mkEvent 4 (results mixedBatch))) abruptSession =
  React.mkOutcome true
    (React.mkWorld
       (mkState (settings (React.state abruptSession))
                (trim (finalTranscript (React.state abruptSession)))
                [] (isListening (React.state abruptSession)) None)
       (mkRefs (recognitionRef (React.store abruptSession)) []))
    [].
Proof.
  split; [simpl; lia |].
  apply (onresult_offset_beyond (mkEvent 4 (results mixedBatch)) abruptSession).
  simpl; lia.
Defined.

(** What [startListening] does in an idle hook that has a recognition
    object. *)
Lemma startListening_idle (w : World) (start : StartResult) :
  isListening (React.state w) = false ->
  present (recognitionRef (React.store w)) = true ->
  React.dispatch (startListening (React.state w) start) w =
  React.mkOutcome true
    (React.mkWorld
       (mkState (settings (React.state w)) [] [] false
          match start with
          | Started => None
          | ThrewError msg => Some (mkError (lit "RecognitionInProgress") msg)
          | ThrewOther =>
              Some (mkError (lit "RecognitionInProgress") startFailedMessage)
          end)
       (mkRefs (recognitionRef (React.store w)) []))
    [CallStart].
Proof.
  intros Hl Hp. destruct w as [s r]. simpl in Hl, Hp.
  unfold React.dispatch, startListening, React.bind, React.readRefs.
  cbn [React.state React.store React.refs]. rewrite Hp.
  destruct s as [st f i l e]. simpl in Hl. subst l.
  destruct start; reflexivity.
Qed.

(** X4: a session start.  From an idle hook with a recognition object, a
    start request that the platform accepts, followed by the platform's start
    event, calls [start()] once and leaves the hook listening with both
    buffers empty and no error, whatever text and error it showed before. *)
Theorem start_then_onstart (w : World) :
  isListening (React.state w) = false ->
  present (recognitionRef (React.store w)) = true ->
  let o := React.dispatch (startListening (React.state w) Started) w in
  React.issued o = [CallStart] /\
  handle onstart (React.world o) =
  React.mkWorld (mkState (settings (React.state w)) [] [] true None)
                (mkRefs (recognitionRef (React.store w)) []).
Proof.
  intros Hl Hp o. subst o. rewrite (startListening_idle w Started Hl Hp).
  split; reflexivity.
Qed.

Lemma start_then_onstart_witness :
  isListening (React.state idleWithText) = false /\
  present (recognitionRef (React.store idleWithText)) = true /\
  let o := React.dispatch
             (startListening (React.state idleWithText) Started) idleWithText in
  React.issued o = [CallStart] /\
  handle onstart (React.world o) =
  React.mkWorld (mkState (settings (React.state idleWithText)) [] [] true None)
                (mkRefs (recognitionRef (React.store idleWithText)) []).
Proof.
  split; [reflexivity |]. split; [reflexivity |].
  apply (start_then_onstart idleWithText); reflexivity.
Defined.

(** X5: when [start()] throws, [startListening] has already emptied both
    buffers; it stays idle and records the error RecognitionInProgress, with
    the message of the exception when that is an [Error] and the fixed
    message otherwise. *)
Theorem startListening_start_throws (w : World) (start : StartResult) :
  isListening (React.state w) = false ->
  present (recognitionRef (React.store w)) = true ->
  start <> Started ->
  let o := React.dispatch (startListening (React.state w) start) w in
  finalTranscript (React.state (React.world o)) = [] /\
  interimTranscript (React.state (React.world o)) = [] /\
  latestInterimRef (React.store (React.world o)) = [] /\
  isListening (React.state (React.world o)) = false /\
  React.issued o = [CallStart] /\
  exists msg : jsstring,
    error (React.state (React.world o))
      = Some (mkError (lit "RecognitionInProgress") msg) /\
    (forall m, start = ThrewError m -> msg = m) /\
    (start = ThrewOther -> msg = startFailedMessage).
Proof.
  intros Hl Hp Hs o. subst o. rewrite (startListening_idle w start Hl Hp).
  simpl. repeat (split; [reflexivity |]).
  destruct start as [| m |]; [congruence | |].
  - exists m. split; [reflexivity |]. split; [intros m' E; congruence | discriminate].
  - exists startFailedMessage. split; [reflexivity |].
    split; [discriminate | reflexivity].
Qed.

Lemma startListening_start_throws_witness :
  isListening (React.state idleWithText) = false /\
  present (recognitionRef (React.store idleWithText)) = true /\
  ThrewError (lit "recognition has already started.") <> Started /\
  let o := React.dispatch
             (startListening (React.state idleWithText)
                (ThrewError (lit "recognition has already started.")))
             idleWithText in
  finalTranscript (React.state (React.world o)) = [] /\
  interimTranscript (React.state (React.world o)) = [] /\
  latestInterimRef (React.store (React.world o)) = [] /\
  isListening (React.state (React.world o)) = false /\
  React.issued o = [CallStart] /\
  exists msg : jsstring,
    error (React.state (React.world o))
      = Some (mkError (lit "RecognitionInProgress") msg) /\
    (forall m, ThrewError (lit "recognition has already started.")
               = ThrewError m -> msg = m) /\
    (ThrewError (lit "recognition has already started.") = ThrewOther ->
     msg = startFailedMessage).
Proof.
  split; [reflexivity |]. split; [reflexivity |]. split; [discriminate |].
  apply (startListening_start_throws idleWithText
           (ThrewError (lit "recognition has already started.")));
    [reflexivity | reflexivity | discriminate].
Defined.

(** X6: without a recognition object and not listening, [startListening]
    records the error NotInitialized and does nothing else: no platform call,
    buffers, ref and listening flag as before. *)
Theorem startListening_not_initialized (w : World) (start : StartResult) :
  isListening (React.state w) = false ->
  recognitionRef (React.store w) = None ->
  React.dispatch (startListening (React.state w) start) w =
  React.mkOutcome true
    (React.mkWorld
       (mkState (settings (React.state w)) (finalTranscript (React.state w))
                (interimTranscript (React.state w)) false (Some notInitialized))
       (React.store w))
    [].
Proof.
  intros Hl Hr. destruct w as [s r]. simpl in Hl, Hr.
  unfold React.dispatch, startListening, React.bind, React.readRefs.
  cbn [React.state React.store React.refs]. rewrite Hl, Hr. simpl.
  now rewrite Hl.
Qed.

Lemma startListening_not_initialized_witness :
  let w := initial (mkPartial None None None None) in
  isListening (React.state w) = false /\
  recognitionRef (React.store w) = None /\
  React.dispatch (startListening (React.state w) Started) w =
  React.mkOutcome true
    (React.mkWorld
       (mkState (settings (React.state w)) (finalTranscript (React.state w))
                (interimTranscript (React.state w)) false (Some notInitialized))
       (React.store w))
    [].
Proof.
  split; [reflexivity |]. split; [reflexivity |].
  apply (startListening_not_initialized
           (initial (mkPartial None None None None)) Started); reflexivity.
Defined.

(** X7: [stopListening] never changes the hook by itself, in any state: it
    sets no state and writes no ref; all it can do is call [stop()] once, and
    it does so exactly when there is a recognition object and the hook is
    listening.  The listening flag only falls with the platform's end or error
    event. *)
Theorem stopListening_only_calls_stop (w : World) :
  React.dispatch (stopListening (React.state w)) w =
  React.mkOutcome true w
    (if present (recognitionRef (React.store w)) && isListening (React.state w)
     then [CallStop] else []).
Proof.
  destruct w as [s r].
  unfold React.dispatch, stopListening, React.bind, React.readRefs.
  cbn [React.state React.store React.refs].
  destruct (present (recognitionRef r) && isListening s); reflexivity.
Qed.

(** X12: when the interim ref is empty, [onend] only lowers the listening
    flag and empties the interim state cell: the final buffer, the stored
    error, the settings and the recognition object stay as they were. *)
Theorem onend_without_interim (w : World) :
  latestInterimRef (React.store w) = [] ->
  React.dispatch onend w =
  React.mkOutcome true
    (React.mkWorld
       (mkState (settings (React.state w)) (finalTranscript (React.state w))
                [] false (error (React.state w)))
       (React.store w))
    [].
Proof.
  intros H. destruct w as [s [rec li]]. simpl in H. subst li. reflexivity.
Qed.

Lemma onend_without_interim_witness :
  latestInterimRef (React.store liveHello) = [] /\
  React.dispatch onend liveHello =
  React.mkOutcome true
    (React.mkWorld
       (mkState (settings (React.state liveHello))
                (finalTranscript (React.state liveHello))
                [] false (error (React.state liveHello)))
       (React.store liveHello))
    [].
Proof.
  split; [reflexivity |].
  apply (onend_without_interim liveHello). reflexivity.
Defined.

End RecognitionEvents.

(** ** The recognition hook over whole sessions *)

Section RecognitionInvariants.

Import Recognition Session.

Lemma invariant_mount (supported : bool) (p : PartialSettings) :
  invariant supported (mount supported p).
Proof.
  unfold invariant. destruct supported; simpl; repeat split.
Qed.

Lemma invariant_onresult (supported : bool) (ev : SpeechRecognitionEvent)
    (w : World) :
  invariant supported w -> invariant supported (handle (onresult ev) w).
Proof.
  intros (Ha & Hf & Hi & Hr). unfold handle.
  destruct (wellFormed ev) eqn:E.
  - rewrite (onresult_world ev w E). unfold invariant. simpl.
    repeat split; try apply trim_trimmed. exact Hr.
  - rewrite (onresult_throws ev w E). simpl. now repeat split.
Qed.

Lemma invariant_onstart (supported : bool) (w : World) :
  invariant supported w -> invariant supported (handle onstart w).
Proof.
  intros (Ha & Hf & Hi & Hr). destruct w as [s r].
  unfold invariant. simpl in *. now repeat split.
Qed.

Lemma invariant_onend (supported : bool) (w : World) :
  invariant supported w -> invariant supported (handle onend w).
Proof.
  intros (Ha & Hf & Hi & Hr). destruct w as [s r].
  unfold invariant, handle, React.dispatch, onend, React.bind, React.readRefs.
  simpl in *.
  destruct (truthy (latestInterimRef r)); simpl; repeat split;
    try assumption; apply trim_trimmed.
Qed.

Lemma invariant_onerror (supported : bool)
    (event : SpeechRecognitionErrorEvent) (w : World) :
  invariant supported w -> invariant supported (handle (onerror event) w).
Proof.
  intros (Ha & Hf & Hi & Hr). destruct w as [s r].
  unfold invariant. simpl in *. now repeat split.
Qed.

Lemma invariant_request (supported : bool) (q : Request) (w : World) :
  invariant supported w -> invariant supported (request supported q w).
Proof.
  intros (Ha & Hf & Hi & Hr).
  destruct w as [[st f i l e] [rec li]]. unfold invariant in *. simpl in *.
  destruct q as [start | | p]; unfold request, React.dispatch.
  - unfold startListening, React.bind, React.readRefs.
    cbn [React.state React.store React.refs recognitionRef isListening].
    destruct (present rec && negb l);
      [destruct start |]; simpl; try (destruct l; simpl);
      repeat split; assumption.
  - unfold stopListening, React.bind, React.readRefs.
    cbn [React.state React.store React.refs recognitionRef isListening].
    destruct (present rec && l); simpl; repeat split; assumption.
  - destruct supported; subst rec; simpl; repeat split; assumption.
Qed.

Lemma invariant_deliver (supported : bool) (e : Event) (w : World) :
  invariant supported w -> invariant supported (deliver supported e w).
Proof.
  intros H. destruct e as [ev | | | ev | q]; simpl;
    try (destruct (present (recognitionRef (React.store w))); [| exact H]).
  - now apply invariant_onresult.
  - now apply invariant_onstart.
  - now apply invariant_onend.
  - now apply invariant_onerror.
  - now apply invariant_request.
Qed.

Lemma invariant_run (supported : bool) (es : list Event) :
  forall w : World,
    invariant supported w -> invariant supported (run supported es w).
Proof.
  induction es as [| e es IH]; intros w H; simpl; [exact H |].
  apply IH. now apply invariant_deliver.
Qed.

(** X8: the interim state cell and [latestInterimRef] never drift apart:
    after the first render and every sequence of platform events and page
    requests they hold the same string. *)
Theorem interim_ref_agree (supported : bool) (p : PartialSettings)
    (es : list Event) :
  let w := run supported es (mount supported p) in
  interimTranscript (React.state w) = latestInterimRef (React.store w).
Proof.
  apply (invariant_run supported es _ (invariant_mount supported p)).
Qed.

(** X9: after every sequence of events and requests, neither buffer has
    leading or trailing whitespace: trimming them again changes nothing. *)
Theorem buffers_stay_trimmed (supported : bool) (p : PartialSettings)
    (es : list Event) :
  let w := run supported es (mount supported p) in
  trim (finalTranscript (React.state w)) = finalTranscript (React.state w) /\
  trim (interimTranscript (React.state w)) = interimTranscript (React.state w).
Proof.
  destruct (invariant_run supported es _ (invariant_mount supported p))
    as (_ & Hf & Hi & _).
  split; assumption.
Qed.

(** X10: the recognition object always carries the current settings: where
    recognition is supported, after every sequence of events and requests
    (settings updates included) the object in [recognitionRef] is the one
    configured with [continuous], [interimResults], [lang] and
    [maxAlternatives] of the settings state; where it is not, there is
    never an object. *)
Theorem recognition_follows_settings (supported : bool) (p : PartialSettings)
    (es : list Event) :
  let w := run supported es (mount supported p) in
  recognitionRef (React.store w) =
    if supported
    then Some (mkRecognition (continuous (settings (React.state w)))
                             (interimResults (settings (React.state w)))
                             (lang (settings (React.state w)))
                             (maxAlternatives (settings (React.state w))))
    else None.
Proof.
  destruct (invariant_run supported es _ (invariant_mount supported p))
    as (_ & _ & _ & Hr).
  exact Hr.
Qed.

(** A character put before a string that [trimEnd] keeps stays. *)
Lemma trimEnd_cons_keep (c : N) (s : jsstring) :
  trimEnd s = s -> s <> [] -> trimEnd (c :: s) = c :: s.
Proof.
  unfold trimEnd. intros H Hne.
  assert (Hs : trimStart (rev s) = rev s).
  { apply (f_equal (@rev N)) in H. now rewrite rev_involutive in H. }
  simpl. rewrite trimStart_app, Hs.
  destruct (rev s) as [| x t] eqn:E.
  - apply (f_equal (@rev N)) in E. rewrite rev_involutive in E. contradiction.
  - rewrite <- E, rev_app_distr, rev_involutive. reflexivity.
Qed.

(** The transcript of two trimmed buffers. *)
Lemma transcript_of_trimmed (f i : jsstring) :
  trimmed f -> trimmed i -> trim (f ++ lit " " ++ i) = joined f i.
Proof.
  intros Hf Hi.
  destruct i as [| c i].
  - destruct f as [| d f]; [reflexivity |].
    rewrite trim_app_trimmed by (assumption || discriminate).
    simpl. now rewrite app_nil_r.
  - destruct f as [| d f].
    + simpl. exact Hi.
    + rewrite trim_app_trimmed by (assumption || discriminate).
      simpl. do 2 f_equal.
      apply (trimEnd_cons_keep 32%N (c :: i));
        [now apply trimmed_end | discriminate].
Qed.

(** X11: the transcript the hook returns, in every state it can reach: the
    final buffer alone when the interim buffer is empty, the interim buffer
    alone when the final buffer is empty, and otherwise the two joined by
    exactly one space; the outer [trim] removes nothing else. *)
Theorem transcript_joined (supported : bool) (p : PartialSettings)
    (es : list Event) :
  let s := React.state (run supported es (mount supported p)) in
  transcriptOf s = joined (finalTranscript s) (interimTranscript s).
Proof.
  destruct (invariant_run supported es _ (invariant_mount supported p))
    as (_ & Hf & Hi & _).
  now apply transcript_of_trimmed.
Qed.

End RecognitionInvariants.

(** ** The page's recognition button *)

Section PageRecognition.

Import Recognition Session Page.

(** X13: through the page's button [startListening] is never reached while
    listening: a click cannot produce the error AlreadyListening.  If the
    hook shows that error after a click, it showed it before. *)
Theorem toggle_never_already_listening (w : World) (start : StartResult) :
  error (React.state
           (React.world (React.dispatch (toggleClick (React.state w) start) w)))
    = Some alreadyListening ->
  error (React.state w) = Some alreadyListening.
Proof.
  destruct w as [[st f i l e] [rec li]].
  unfold toggleClick, toggleDisabled, React.dispatch.
  cbn [React.state error isListening].
  destruct (present e && negb l) eqn:D; [simpl; auto |].
  destruct l.
  - unfold stopListening, React.bind, React.readRefs. simpl.
    destruct (present rec); simpl; auto.
  - unfold startListening, React.bind, React.readRefs. simpl.
    destruct (present rec); simpl; [destruct start |]; simpl;
      intros H; discriminate H.
Qed.

Lemma toggle_never_already_listening_witness :
  let w := React.mkWorld
             (mkState defaultSettings [] [] true (Some alreadyListening))
             (mkRefs (Some (configured defaultSettings)) []) in
  error (React.state
           (React.world (React.dispatch (toggleClick (React.state w) Started) w)))
    = Some alreadyListening /\
  error (React.state w) = Some alreadyListening.
Proof.
  split; [reflexivity |].
  apply (toggle_never_already_listening
           (React.mkWorld
              (mkState defaultSettings [] [] true (Some alreadyListening))
              (mkRefs (Some (configured defaultSettings)) []))
           Started).
  reflexivity.
Defined.

(** With the button disabled, an interaction leaves it disabled and does not
    call [start()]. *)
Lemma interact_disabled (supported : bool) (i : Interaction) (w : World) :
  toggleDisabled (React.state w) = true ->
  toggleDisabled (React.state (fst (interact supported i w))) = true /\
  ~ In CallStart (snd (interact supported i w)).
Proof.
  destruct w as [[st f it l e] [rec li]].
  unfold toggleDisabled. cbn [React.state error isListening]. intros H.
  apply andb_true_iff in H. destruct H as [He Hl].
  destruct l; [discriminate |]. destruct e as [e |]; [| discriminate].
  destruct i as [start | p].
  - unfold interact, toggleClick, toggleDisabled. simpl. auto.
  - unfold interact. cbn [React.state isListening].
    destruct supported, rec; simpl; split; try reflexivity;
      intros H; intuition discriminate.
Qed.

Lemma interactions_disabled (supported : bool) (acts : list Interaction) :
  forall w : World,
    toggleDisabled (React.state w) = true ->
    toggleDisabled (React.state (fst (interactions supported acts w))) = true /\
    ~ In CallStart (snd (interactions supported acts w)).
Proof.
  induction acts as [| i acts IH]; intros w H; simpl; [auto |].
  destruct (interact_disabled supported i w H) as [H1 C1].
  destruct (interact supported i w) as [w1 calls1]. simpl in H1, C1.
  destruct (IH w1 H1) as [H2 C2].
  destruct (interactions supported acts w1) as [w2 calls2]. simpl in *.
  split; [exact H2 |].
  intros Hin. apply in_app_or in Hin. tauto.
Qed.

(** X14: after a recognition error the page offers no way to listen again.
    [onerror] leaves the hook idle with an error, which disables the button;
    from then on, whatever the user clicks or changes in the settings, the
    button stays disabled, the hook stays idle with an error on display, and
    [start()] is never called. *)
Theorem no_restart_after_error (supported : bool) (w : World)
    (event : SpeechRecognitionErrorEvent) (acts : list Interaction) :
  let w0 := handle (onerror event) w in
  let r := interactions supported acts w0 in
  toggleDisabled (React.state w0) = true /\
  toggleDisabled (React.state (fst r)) = true /\
  isListening (React.state (fst r)) = false /\
  present (error (React.state (fst r))) = true /\
  ~ In CallStart (snd r).
Proof.
  intros w0 r.
  assert (H0 : toggleDisabled (React.state w0) = true)
    by (subst w0; destruct w as [s rf]; reflexivity).
  destruct (interactions_disabled supported acts w0 H0) as [H C].
  fold r in H, C. split; [exact H0 |]. split; [exact H |].
  unfold toggleDisabled in H. apply andb_true_iff in H. destruct H as [He Hl].
  apply negb_true_iff in Hl. auto.
Qed.

End PageRecognition.

(** ** The synthesis hook and the page's Speak button *)

Section SynthesisMore.

Import Synthesis Page.

Lemma streq_eq (a b : jsstring) : streq a b = true <-> a = b.
Proof.
  revert b. induction a as [| x a IH]; intros [| y b]; simpl;
    try (split; (reflexivity || discriminate)).
  rewrite andb_true_iff, N.eqb_eq, IH.
  split; [intros [-> ->]; reflexivity | intros E; injection E; auto].
Qed.

(** Two numbers that compare equal are the same value, or are both zeros. *)
Lemma SFcompare_Eq_inv (a b : number) :
  SFcompare a b = Some Eq ->
  a = b \/ exists s1 s2, a = S754_zero s1 /\ b = S754_zero s2.
Proof.
  destruct a as [sa | sa | | sa ma ea], b as [sb | sb | | sb mb eb];
    try (simpl; discriminate);
    try (destruct sa; simpl; discriminate);
    try (destruct sb; simpl; discriminate).
  - intros _. right. eauto.
  - destruct sa, sb; simpl; intros H; (discriminate H || now left).
  - rewrite SFcompare_finite. intros H.
    pose proof (cmpFinite_spec ea ma eb mb) as S.
    destruct sa, sb; try discriminate H;
      destruct (cmpFinite ea ma eb mb); try discriminate H;
      destruct S as [-> ->]; now left.
Qed.

(** A value between the bounds that is not -0 goes through
    [Math.max(lo, Math.min(hi, x))] unchanged. *)
Lemma clamp_code_keeps (lo hi x : number) :
  properBounds lo hi = true -> lessThan lo hi = true ->
  within lo hi x = true -> x <> S754_zero true ->
  Math_max [lo; Math_min [hi; x]] = x.
Proof.
  intros Hb Hlh Hw Hz. unfold within in Hw.
  apply andb_true_iff in Hw. destruct Hw as [H1 H2].
  assert (Hx : isNaN x = false).
  { destruct x; try reflexivity.
    unfold lessEq, SFleb in H2. simpl in H2. discriminate. }
  rewrite (clamp_code lo hi x Hb Hx). cbv zeta.
  unfold lessEq, SFleb, lessThan, SFltb in *.
  destruct (SFcompare x hi) as [[] |] eqn:E2; try discriminate H2.
  - destruct (SFcompare_Eq_inv x hi E2) as [-> | (s1 & s2 & -> & ->)].
    + now rewrite Hlh.
    + destruct lo as [[]|[]| |[] ? ?]; discriminate Hb.
  - destruct (SFcompare lo x) as [[] |] eqn:E1; try discriminate H1;
      [| reflexivity].
    destruct (SFcompare_Eq_inv lo x E1) as [-> | (s1 & s2 & -> & ->)];
      [reflexivity |].
    destruct s1; [destruct hi as [[]|[]| |[] ? ?]; discriminate Hb |].
    destruct s2; [congruence | reflexivity].
Qed.

Lemma spread_noSettings (s : SpeechSynthesisSettings) : spread s noSettings = s.
Proof. now destruct s. Qed.

(** What an accepted [speak] does. *)
Lemma speak_accepted (w : World) (text : jsstring)
    (customSettings : option PartialSettings) :
  text <> [] ->
  React.dispatch (speak true (React.state w) text customSettings) w =
  React.mkOutcome true
    (React.mkWorld
       (mkState (settings (React.state w)) None true
                (availableVoices (React.state w)))
       (React.store w))
    [CallSpeak (buildUtterance (availableVoices (React.state w)) text
                  (spread (settings (React.state w))
                          (orElse customSettings noSettings)))].
Proof.
  intros H. destruct text as [| c t]; [congruence |]. now destruct w.
Qed.

(** X15: a later settings update wins over an earlier one property by
    property: after [updateSettings(p)] and then [updateSettings(q)] each
    setting is the one [q] gives, else the one [p] gives, else the old one,
    whether or not a render separates the two calls; a [voiceName] given as
    undefined counts as given and clears the name. *)
Theorem updateSettings_last_wins (w : World) (p q : PartialSettings) :
  let old := settings (React.state w) in
  let merged :=
    mkSettings (orElse (p_lang q) (orElse (p_lang p) (lang old)))
               (orElse (p_rate q) (orElse (p_rate p) (rate old)))
               (orElse (p_pitch q) (orElse (p_pitch p) (pitch old)))
               (orElse (p_volume q) (orElse (p_volume p) (volume old)))
               (orElse (p_voiceName q) (orElse (p_voiceName p) (voiceName old))) in
  settings (React.state
    (React.world (React.dispatch (updateSettings q)
       (React.world (React.dispatch (updateSettings p) w))))) = merged /\
  settings (React.state
    (React.world (React.dispatch
       (React.bind (updateSettings p) (fun _ => updateSettings q)) w))) = merged.
Proof.
  split; reflexivity.
Qed.

(** X16: the voice [speak] picks is one of the available voices and has the
    language of the merged settings; it has the requested name when a
    non-empty name is set, and is a default voice otherwise. *)
Theorem chooseVoice_sound (voices : list SpeechSynthesisVoice)
    (finalSettings : SpeechSynthesisSettings) (v : SpeechSynthesisVoice) :
  chooseVoice voices finalSettings = Some v ->
  In v voices /\
  v_lang v = lang finalSettings /\
  match voiceName finalSettings with
  | Some (c :: n) => v_name v = c :: n
  | _ => v_default v = true
  end.
Proof.
  unfold chooseVoice. intros H.
  destruct (voiceName finalSettings) as [[| c n] |];
    apply find_some in H; destruct H as [Hin Hp];
    apply andb_true_iff in Hp; destruct Hp as [Ha Hb];
    rewrite ?streq_eq in *; auto.
Qed.

Lemma chooseVoice_sound_witness :
  let voices := [ mkVoice (lit "Alex") (lit "en-US") true;
                  mkVoice (lit "Samantha") (lit "en-US") false;
                  mkVoice (lit "Thomas") (lit "fr-FR") true ] in
  let fs := mkSettings (lit "en-US") n1 n1 n1 (Some (lit "Samantha")) in
  let v := mkVoice (lit "Samantha") (lit "en-US") false in
  chooseVoice voices fs = Some v /\
  In v voices /\
  v_lang v = lang fs /\
  match voiceName fs with
  | Some (c :: n) => v_name v = c :: n
  | _ => v_default v = true
  end.
Proof.
  split; [reflexivity |].
  apply (chooseVoice_sound
           [ mkVoice (lit "Alex") (lit "en-US") true;
             mkVoice (lit "Samantha") (lit "en-US") false;
             mkVoice (lit "Thomas") (lit "fr-FR") true ]
           (mkSettings (lit "en-US") n1 n1 n1 (Some (lit "Samantha")))
           (mkVoice (lit "Samantha") (lit "en-US") false)).
  reflexivity.
Defined.

(** X17: a named voice that is missing is not replaced by the default voice.
    When the merged settings name a voice and no available voice has that
    name together with the settings' language, the utterance is spoken with
    no voice set, even if a default voice for the language exists. *)
Theorem speak_named_voice_missing (w : World) (text : jsstring)
    (customSettings : option PartialSettings) (c : N) (n : jsstring) :
  let finalSettings :=
    spread (settings (React.state w)) (orElse customSettings noSettings) in
  text <> [] ->
  voiceName finalSettings = Some (c :: n) ->
  (forall v, In v (availableVoices (React.state w)) ->
             v_name v = c :: n -> v_lang v <> lang finalSettings) ->
  exists u : SpeechSynthesisUtterance,
    spoken (React.dispatch (speak true (React.state w) text customSettings) w)
      = Some u /\
    u_voice u = None.
Proof.
  intros fs Ht Hn Hv.
  rewrite (speak_accepted w text customSettings Ht). fold fs.
  eexists. split; [reflexivity |].
  cbn [u_voice buildUtterance]. unfold chooseVoice. rewrite Hn.
  destruct (find _ _) as [v |] eqn:F; [| reflexivity].
  apply find_some in F. destruct F as [Hin Hp].
  apply andb_true_iff in Hp. destruct Hp as [Ha Hb].
  apply streq_eq in Ha, Hb. now destruct (Hv v Hin Ha).
Qed.

Lemma speak_named_voice_missing_witness :
  let w := React.mkWorld
             (mkState (mkSettings (lit "en-US") n1 n1 n1 (Some (lit "Thomas")))
                      None false
                      [ mkVoice (lit "Alex") (lit "en-US") true;
                        mkVoice (lit "Thomas") (lit "fr-FR") true ])
             tt in
  let finalSettings :=
    spread (settings (React.state w)) (orElse None noSettings) in
  lit "hi" <> [] /\
  voiceName finalSettings = Some (84%N :: lit "homas") /\
  (forall v, In v (availableVoices (React.state w)) ->
             v_name v = 84%N :: lit "homas" -> v_lang v <> lang finalSettings) /\
  exists u : SpeechSynthesisUtterance,
    spoken (React.dispatch (speak true (React.state w) (lit "hi") None) w)
      = Some u /\
    u_voice u = None.
Proof.
  intros w fs.
  assert (Hv : forall v, In v (availableVoices (React.state w)) ->
                 v_name v = 84%N :: lit "homas" -> v_lang v <> lang fs).
  { intros v [<- | [<- | []]]; simpl; intros H; discriminate. }
  split; [discriminate |]. split; [reflexivity |]. split; [exact Hv |].
  apply (speak_named_voice_missing w (lit "hi") None 84%N (lit "homas"));
    [discriminate | reflexivity | exact Hv].
Defined.

(** X18: [speak] never changes the stored settings or the list of voices,
    whatever it is given: custom settings apply to the one utterance only,
    and a rejected call changes the error alone. *)
Theorem speak_keeps_settings (supported : bool) (w : World) (text : jsstring)
    (customSettings : option PartialSettings) :
  let w' := React.world
              (React.dispatch
                 (speak supported (React.state w) text customSettings) w) in
  settings (React.state w') = settings (React.state w) /\
  availableVoices (React.state w') = availableVoices (React.state w).
Proof.
  destruct w as [s r]. destruct supported, text as [| c t]; split; reflexivity.
Qed.



End SynthesisMore.

Section SynthesisPage.

Import Synthesis Page.

(** X20: values inside their ranges reach the utterance untouched.  With a
    non-empty text, a rate in [0.1, 10], a pitch in [0, 2] and a volume in
    [0, 1] (pitch and volume not the negative zero), the utterance carries
    exactly the merged rate, pitch and volume. *)
Theorem speak_in_range_unchanged (w : World) (text : jsstring)
    (customSettings : option PartialSettings) :
  let finalSettings :=
    spread (settings (React.state w)) (orElse customSettings noSettings) in
  text <> [] ->
  within n0_1 n10 (rate finalSettings) = true ->
  within n0 n2 (pitch finalSettings) = true ->
  pitch finalSettings <> S754_zero true ->
  within n0 n1 (volume finalSettings) = true ->
  volume finalSettings <> S754_zero true ->
  exists u : SpeechSynthesisUtterance,
    spoken (React.dispatch (speak true (React.state w) text customSettings) w)
      = Some u /\
    u_rate u = rate finalSettings /\
    u_pitch u = pitch finalSettings /\
    u_volume u = volume finalSettings.
Proof.
  intros fs Ht Hr Hp Hpz Hv Hvz.
  rewrite (speak_accepted w text customSettings Ht). fold fs.
  eexists. split; [reflexivity |].
  cbn [u_rate u_pitch u_volume buildUtterance].
  repeat split; apply clamp_code_keeps; try reflexivity; try assumption.
  intros E. rewrite E in Hr. discriminate Hr.
Qed.

Lemma speak_in_range_unchanged_witness :
  let finalSettings :=
    spread (settings (React.state freshSynthesis)) (orElse (Some rateHalf) noSettings) in
  lit "hi" <> [] /\
  within n0_1 n10 (rate finalSettings) = true /\
  within n0 n2 (pitch finalSettings) = true /\
  pitch finalSettings <> S754_zero true /\
  within n0 n1 (volume finalSettings) = true /\
  volume finalSettings <> S754_zero true /\
  exists u : SpeechSynthesisUtterance,
    spoken (React.dispatch
              (speak true (React.state freshSynthesis) (lit "hi") (Some rateHalf))
              freshSynthesis) = Some u /\
    u_rate u = rate finalSettings /\
    u_pitch u = pitch finalSettings /\
    u_volume u = volume finalSettings.
Proof.
  intros fs.
  split; [discriminate |]. split; [reflexivity |]. split; [reflexivity |].
  split; [discriminate |]. split; [reflexivity |]. split; [discriminate |].
  apply (speak_in_range_unchanged freshSynthesis (lit "hi") (Some rateHalf));
    (reflexivity || discriminate).
Defined.

Lemma trim_blank (s : jsstring) :
  forallb isWhiteSpace s = true -> trim s = [].
Proof.
  intros H. unfold trim.
  assert (E : trimStart s = []).
  { induction s as [| c s IH]; [reflexivity |]. simpl in *.
    apply andb_true_iff in H. destruct H as [Hc Hs]. rewrite Hc. now apply IH. }
  now rewrite E.
Qed.

(** X21: the page never sends a blank text to [speak].  For a text made of
    whitespace only (the empty text included), [handleSpeak] does nothing:
    no call on the platform, no error, no change of state. *)
Theorem handleSpeak_blank (supported : bool) (w : World) (text : jsstring) :
  forallb isWhiteSpace text = true ->
  React.dispatch (handleSpeak supported (React.state w) text) w =
  React.mkOutcome true w [].
Proof.
  intros H. unfold handleSpeak. rewrite (trim_blank text H). now destruct w.
Qed.

Lemma handleSpeak_blank_witness :
  forallb isWhiteSpace (lit "   ") = true /\
  React.dispatch (handleSpeak true (React.state freshSynthesis) (lit "   "))
                 freshSynthesis
  = React.mkOutcome true freshSynthesis [].
Proof.
  split; [reflexivity |].
  apply (handleSpeak_blank true freshSynthesis (lit "   ")). reflexivity.
Defined.

(** X22: one click, one utterance.  Where synthesis is supported, a click on
    the enabled Speak button hands the platform exactly one utterance, with
    the text as typed (not trimmed) and built from the stored settings alone;
    it raises the speaking flag, which disables the button: a further click,
    whatever the text by then, does nothing. *)
Theorem speakClick_once (w : World) (text : jsstring) :
  speakDisabled (React.state w) text = false ->
  let o := React.dispatch (speakClick true (React.state w) text) w in
  React.issued o =
    [CallSpeak (buildUtterance (availableVoices (React.state w)) text
                               (settings (React.state w)))] /\
  isSpeaking (React.state (React.world o)) = true /\
  forall text' : jsstring,
    React.dispatch (speakClick true (React.state (React.world o)) text')
                   (React.world o)
    = React.mkOutcome true (React.world o) [].
Proof.
  intros H o. subst o. unfold speakClick. rewrite H.
  unfold speakDisabled in H.
  apply orb_false_iff in H. destruct H as [H He].
  apply orb_false_iff in H. destruct H as [Hs Ht].
  apply negb_false_iff in Ht.
  unfold handleSpeak. rewrite Ht.
  assert (Hne : text <> []) by (intros ->; discriminate Ht).
  rewrite (speak_accepted w text None Hne). simpl.
  rewrite spread_noSettings. repeat split.
Qed.

Lemma speakClick_once_witness :
  speakDisabled (React.state freshSynthesis) (lit " hi ") = false /\
  let o := React.dispatch
             (speakClick true (React.state freshSynthesis) (lit " hi "))
             freshSynthesis in
  React.issued o =
    [CallSpeak (buildUtterance (availableVoices (React.state freshSynthesis))
                               (lit " hi ")
                               (settings (React.state freshSynthesis)))] /\
  isSpeaking (React.state (React.world o)) = true /\
  forall text' : jsstring,
    React.dispatch (speakClick true (React.state (React.world o)) text')
                   (React.world o)
    = React.mkOutcome true (React.world o) [].
Proof.
  split; [reflexivity |].
  apply (speakClick_once freshSynthesis (lit " hi ")). reflexivity.
Defined.

End SynthesisPage.

Section MoreEdges.

Import Recognition Session.

(** X2: [onresult] commits a batch whole or not at all.  If some result from
    the offset onward has no alternative, reading its transcript throws
    before any setter is called: the handler does not return, and the state,
    the refs and the stored error are as before, even for the results ahead of
    the faulty one. *)
Theorem onresult_all_or_nothing (ev : SpeechRecognitionEvent) (w : World) :
  (exists r, In r (skipn (resultIndex ev) (results ev)) /\ alternatives r = []) ->
  React.dispatch (onresult ev) w = React.mkOutcome false w [].
Proof.
  intros (r & Hin & Ha). apply onresult_throws.
  unfold wellFormed, batchResults.
  destruct (forallb hasAlternative (skipn (resultIndex ev) (results ev))) eqn:E;
    [| reflexivity].
  rewrite forallb_forall in E. specialize (E r Hin).
  unfold hasAlternative in E. now rewrite Ha in E.
Qed.

Lemma onresult_all_or_nothing_witness :
  (exists r, In r (skipn (resultIndex brokenBatch) (results brokenBatch)) /\
             alternatives r = []) /\
  React.dispatch (onresult brokenBatch) idleWithText
    = React.mkOutcome false idleWithText [].
Proof.
  assert (H : exists r,
             In r (skipn (resultIndex brokenBatch) (results brokenBatch)) /\
             alternatives r = []).
  { exists (mkResult false []). split; [simpl; auto | reflexivity]. }
  split; [exact H |].
  apply (onresult_all_or_nothing brokenBatch idleWithText H).
Defined.

End MoreEdges.

Section StopButton.

Import Synthesis Page.

(** X23: Stop gives the Speak button back.  Where synthesis is supported,
    after a click on the enabled Speak button a click on Stop calls
    [cancel()] once, lowers the speaking flag, sets no error, and the Speak
    button is enabled again for the same text. *)
Theorem stop_reenables_speak (w : World) (text : jsstring) :
  speakDisabled (React.state w) text = false ->
  let w1 := React.world
              (React.dispatch (speakClick true (React.state w) text) w) in
  let o := React.dispatch (stopClick true (React.state w1)) w1 in
  React.issued o = [CallCancel] /\
  isSpeaking (React.state (React.world o)) = false /\
  error (React.state (React.world o)) = None /\
  speakDisabled (React.state (React.world o)) text = false.
Proof.
  intros H w1 o. subst o w1. unfold speakClick. rewrite H.
  pose proof H as H'. unfold speakDisabled in H'.
  apply orb_false_iff in H'. destruct H' as [H' He].
  apply orb_false_iff in H'. destruct H' as [Hs Ht].
  pose proof Ht as Ht'. apply negb_false_iff in Ht'.
  unfold handleSpeak. rewrite Ht'.
  assert (Hne : text <> []) by (intros ->; discriminate Ht').
  rewrite (speak_accepted w text None Hne). simpl.
  unfold speakDisabled. simpl. rewrite Ht. repeat split.
Qed.

Lemma stop_reenables_speak_witness :
  speakDisabled (React.state freshSynthesis) (lit "hi") = false /\
  let w1 := React.world
              (React.dispatch
                 (speakClick true (React.state freshSynthesis) (lit "hi"))
                 freshSynthesis) in
  let o := React.dispatch (stopClick true (React.state w1)) w1 in
  React.issued o = [CallCancel] /\
  isSpeaking (React.state (React.world o)) = false /\
  error (React.state (React.world o)) = None /\
  speakDisabled (React.state (React.world o)) (lit "hi") = false.
Proof.
  split; [reflexivity |].
  apply (stop_reenables_speak freshSynthesis (lit "hi")). reflexivity.
Defined.

End StopButton.
